(** * API-to-data-lake tutorial scripts: extractor and pipeline glue, verified

    A shallow embedding of the three scripts of the repository

      - [01_simple_pipeline.py]   (module [SimplePipeline]),
      - [02_incremental_load.py]  (module [IncrementalLoad]),
      - [bigquery_pipeline.py]    (module [BigQueryPipeline]),

    The scripts are generator functions that talk to the outside (HTTP, the
    wall clock, the file system, the ingestion library).  Values decoded from
    JSON are Python values ([pyval]); a generator body is a computation in the
    monad [Gen Y], which threads the outside world, collects the records it
    yields and stops at the first exception raised. *)

From Stdlib Require Import ZArith String Ascii Floats.SpecFloat.
From stdpp Require Import base option list gmap strings.

Local Open Scope Z_scope.

(** ** Python values *)

(** A Python [str] is a sequence of Unicode code points; [len] counts them. *)
Definition pystr := list N.

(** A string literal of the source text (all of them are ASCII). *)
Definition lit (s : string) : pystr := N_of_ascii <$> list_ascii_of_string s.
Arguments lit : simpl never.

(** What [response.json()] can produce.  A [dict] keeps its insertion order,
    so it is an association list; a decoded dict has no repeated key. *)
#[warnings="-register-all"]
Inductive pyval :=
  | PyNone
  | PyBool (b : bool)
  | PyInt (z : Z)
  | PyFloat (f : spec_float)
  | PyStr (s : pystr)
  | PyList (l : list pyval)
  | PyDict (d : list (pystr * pyval)).

(** The exceptions that occur.  [KeyboardInterrupt] and [SystemExit] derive
    from [BaseException] only; all the others derive from [Exception]. *)
Inductive exn :=
  | KeyError (k : pystr)
  | TypeError
  | ValueError
  | JSONDecodeError
  | HTTPError (status : Z)
  | ConnectionError
  | LibraryError (what : string)
  | KeyboardInterrupt
  | SystemExit.

(** [isinstance(e, Exception)] *)
Definition is_Exception (e : exn) : bool :=
  match e with
  | KeyboardInterrupt | SystemExit => false
  | _ => true
  end.

(** How the evaluation of an expression or a statement ends. *)
Inductive result (A : Type) :=
  | Done (a : A)
  | Raised (e : exn).
Arguments Done {A} a.
Arguments Raised {A} e.

(** Sequencing of expressions: the first exception raised is the result. *)
Global Instance result_ret : MRet result := λ A a, Done a.
Global Instance result_bind : MBind result :=
  λ A B k r, match r with Done a => k a | Raised e => Raised e end.

(** [d[k]] on the association list of a dict. *)
Fixpoint dict_get (d : list (pystr * pyval)) (k : pystr) : option pyval :=
  match d with
  | [] => None
  | (k', v) :: d' => if decide (k' = k) then Some v else dict_get d' k
  end.

(** [v[k]] with a string key [k]: a dict is looked up ([KeyError] when the key
    is absent), a list or a str wants integer indices, nothing else can be
    subscripted. *)
Definition py_getitem (v : pyval) (k : pystr) : result pyval :=
  match v with
  | PyDict d =>
      match dict_get d k with
      | Some x => Done x
      | None => Raised (KeyError k)
      end
  | _ => Raised TypeError
  end.

(** [v[k1][k2]...]: the subscripts are applied from left to right. *)
Fixpoint py_path (v : pyval) (ks : list pystr) : result pyval :=
  match ks with
  | [] => Done v
  | k :: ks' => x ← py_getitem v k; py_path x ks'
  end.

(** [len(v)] *)
Definition py_len (v : pyval) : result Z :=
  match v with
  | PyStr s => Done (Z.of_nat (length s))
  | PyList l => Done (Z.of_nat (length l))
  | PyDict d => Done (Z.of_nat (length d))
  | _ => Raised TypeError
  end.

(** The items [for x in v] goes through: the elements of a list, the keys of
    a dict, the characters of a str. *)
Definition py_iter (v : pyval) : result (list pyval) :=
  match v with
  | PyList l => Done l
  | PyDict d => Done ((λ kv, PyStr kv.1) <$> d)
  | PyStr s => Done ((λ c, PyStr [c]) <$> s)
  | _ => Raised TypeError
  end.

(** [f > z] for a float [f] and an int [z].  Python compares the two exactly:
    a finite float is [(-1)^s * m * 2^e]; [nan] compares false with
    everything. *)
Definition float_gt_int (f : spec_float) (z : Z) : bool :=
  match f with
  | S754_nan => false
  | S754_infinity s => negb s
  | S754_zero _ => 0 >? z
  | S754_finite s m e =>
      let v := if s then Z.neg m else Z.pos m in
      if 0 <=? e then v * 2 ^ e >? z else v >? z * 2 ^ (- e)
  end.

(** [v > z] for an int [z]: numbers compare ([bool] is a subclass of [int]),
    anything else raises [TypeError]. *)
Definition py_gt_int (v : pyval) (z : Z) : result bool :=
  match v with
  | PyInt x => Done (x >? z)
  | PyBool b => Done ((if b then 1 else 0) >? z)
  | PyFloat f => Done (float_gt_int f z)
  | _ => Raised TypeError
  end.

(** A JSON scalar: everything but a list and a dict. *)
Definition is_scalar (v : pyval) : bool :=
  match v with
  | PyList _ | PyDict _ => false
  | _ => true
  end.

(** ** The outside world *)

(** What [requests.get(url)] comes back with: it raises (no connection, a
    timeout, an interrupt), or there is a response with a status code and a
    body; [json] is what [response.json()] decodes from the body, [None] when
    the body is not valid JSON. *)
Inductive http_reply :=
  | NoResponse (e : exn)
  | Response (status : Z) (json : option pyval).

(** The arguments of [dlt.pipeline(...)] in [bigquery_pipeline.py]: the
    destination is [dlt.destinations.bigquery(credentials=..., location=...)]. *)
Record pipeline_config := PipelineConfig {
  pipeline_name : string;
  credentials : string;
  location : string;
  dataset_name : string
}.

(** Console output, one constructor per [print] (or block of [print]s that
    always run together); the text itself is narration. *)
Inductive message :=
  | MsgFetching (what : string)
  | MsgFound (n : Z) (what : string)
  | MsgLastLoaded (last : Z)
  | MsgTotal (n : Z)
  | MsgNew (n : Z)
  | MsgBanner
  | MsgSetupCheck
  | MsgCredentials (found : bool) (path : string)
  | MsgProject (configured : bool) (project : string)
  | MsgDataset (dataset : string)
  | MsgSetupRequired
  | MsgCompleteSetupFirst
  | MsgFeatures
  | MsgCost
  | MsgRunning
  | MsgConfiguration (name project dataset : string)
  | MsgStarting
  | MsgLoadCompleted
  | MsgTable (project dataset table : string)
  | MsgQueries (project dataset : string)
  | MsgSuccess
  | MsgError (e : exn)
  | MsgTroubleshooting.

(** What a run does that can be observed from outside, in order. *)
Inductive event :=
  | HttpGet (url : string)
  | Print (m : message)
  | CreatePipeline (c : pipeline_config)
  | RunPipeline (c : pipeline_config).

(** The world answers; the first argument counts the questions asked so far,
    so that the same question can get another answer later.  [environ] is
    [os.environ] when the script starts, [path_exists] is [Path(p).exists()],
    [dlt_pipeline] tells whether [dlt.pipeline(...)] raises, and [dlt_load] is
    the part of [pipeline.run] after the extraction: it raises, or gives the
    table names of [schema_update] for each package of [load_packages]. *)
Record world := World {
  environ : gmap string string;
  http : nat → string → http_reply;
  now_isoformat : nat → pystr;
  path_exists : nat → string → bool;
  dlt_pipeline : nat → pipeline_config → option exn;
  dlt_load : nat → pipeline_config → result (list (list string))
}.

Record state := State {
  log : list event;
  ticks : nat
}.

(** ** Generators *)

(** A run of a generator body from a state: the records yielded so far, the
    state reached, and how it ended. *)
Record run (Y A : Type) := Run {
  yields : list Y;
  final : state;
  outcome : result A
}.
Arguments Run {Y A} yields final outcome.
Arguments yields {Y A} r.
Arguments final {Y A} r.
Arguments outcome {Y A} r.

Definition Gen (Y A : Type) : Type := world → state → run Y A.

Definition gen_ret {Y A} (a : A) : Gen Y A := λ _ s, Run [] s (Done a).

Definition gen_bind {Y A B} (m : Gen Y A) (k : A → Gen Y B) : Gen Y B :=
  λ w s,
    let r := m w s in
    match outcome r with
    | Done a =>
        let r' := k a w (final r) in
        Run (yields r ++ yields r') (final r') (outcome r')
    | Raised e => Run (yields r) (final r) (Raised e)
    end.

Global Instance Gen_ret {Y} : MRet (Gen Y) := λ A, gen_ret.
Global Instance Gen_bind {Y} : MBind (Gen Y) := λ A B k m, gen_bind m k.

(** [yield y] *)
Definition yield {Y} (y : Y) : Gen Y unit := λ _ s, Run [y] s (Done tt).

(** [raise e] *)
Definition raise {Y A} (e : exn) : Gen Y A := λ _ s, Run [] s (Raised e).

(** The value of an expression, or the exception it raises. *)
Definition eval {Y A} (r : result A) : Gen Y A :=
  match r with
  | Done a => gen_ret a
  | Raised e => raise e
  end.

(** Adding an event to the log. *)
Definition emit {Y} (ev : event) : Gen Y unit :=
  λ _ s, Run [] (State (log s ++ [ev]) (ticks s)) (Done tt).

(** [print(...)] *)
Definition print {Y} (m : message) : Gen Y unit := emit (Print m).

(** [requests.get(url)], of [requests] or of its wrapper
    [dlt.sources.helpers.requests]: one call, whatever the library does
    underneath to follow redirects or to retry. *)
Definition requests_get {Y} (url : string) : Gen Y (Z * option pyval) :=
  λ w s,
    let s' := State (log s ++ [HttpGet url]) (S (ticks s)) in
    match http w (ticks s) url with
    | NoResponse e => Run [] s' (Raised e)
    | Response status body => Run [] s' (Done (status, body))
    end.

(** A client error or a server error. *)
Definition error_status (status : Z) : Prop := 400 ≤ status < 600.

(** [response.raise_for_status()] of the [requests] library: an [HTTPError]
    for a client error (4xx) or a server error (5xx), nothing otherwise. *)
Definition raise_for_status {Y} (response : Z * option pyval) : Gen Y unit :=
  if decide (400 ≤ response.1 < 600)%Z then raise (HTTPError response.1)
  else gen_ret tt.

(** [response.json()] *)
Definition response_json {Y} (response : Z * option pyval) : Gen Y pyval :=
  match response.2 with
  | Some v => gen_ret v
  | None => raise JSONDecodeError
  end.

(** [datetime.now().isoformat()] *)
Definition datetime_now_isoformat {Y} : Gen Y pystr :=
  λ w s, Run [] (State (log s) (S (ticks s))) (Done (now_isoformat w (ticks s))).

(** [for x in xs: body] *)
Fixpoint for_each {Y A} (xs : list A) (body : A → Gen Y unit) : Gen Y unit :=
  match xs with
  | [] => gen_ret tt
  | x :: xs' => body x;; for_each xs' body
  end.

(** [[x for x in xs if cond]], where evaluating [cond] can raise. *)
Fixpoint comprehension_if {A} (xs : list A) (cond : A → result bool)
  : result (list A) :=
  match xs with
  | [] => Done []
  | x :: xs' =>
      b ← cond x;
      ys ← comprehension_if xs' cond;
      mret (if b : bool then x :: ys else ys)
  end.

(** The two endpoints. *)
Definition USERS_URL : string := "https://jsonplaceholder.typicode.com/users".
Definition POSTS_URL : string := "https://jsonplaceholder.typicode.com/posts".

(** ** 01_simple_pipeline.py *)

Module SimplePipeline.

(** The dict that [load_users] yields. *)
Record user_row := UserRow {
  user_id : pyval;
  name : pyval;
  username : pyval;
  email : pyval;
  phone : pyval;
  website : pyval;
  street : pyval;
  suite : pyval;
  city : pyval;
  zipcode : pyval;
  latitude : pyval;
  longitude : pyval;
  company_name : pyval;
  company_catchphrase : pyval;
  company_bs : pyval
}.

(** The dict display of [load_users]; the values are evaluated in the order
    they are written. *)
Definition user_record (user : pyval) : result user_row :=
  v1 ← py_path user [lit "id"];
  v2 ← py_path user [lit "name"];
  v3 ← py_path user [lit "username"];
  v4 ← py_path user [lit "email"];
  v5 ← py_path user [lit "phone"];
  v6 ← py_path user [lit "website"];
  v7 ← py_path user [lit "address"; lit "street"];
  v8 ← py_path user [lit "address"; lit "suite"];
  v9 ← py_path user [lit "address"; lit "city"];
  v10 ← py_path user [lit "address"; lit "zipcode"];
  v11 ← py_path user [lit "address"; lit "geo"; lit "lat"];
  v12 ← py_path user [lit "address"; lit "geo"; lit "lng"];
  v13 ← py_path user [lit "company"; lit "name"];
  v14 ← py_path user [lit "company"; lit "catchPhrase"];
  v15 ← py_path user [lit "company"; lit "bs"];
  mret (UserRow v1 v2 v3 v4 v5 v6 v7 v8 v9 v10 v11 v12 v13 v14 v15).

Definition load_users : Gen user_row unit :=
  print (MsgFetching "users") ;;
  response ← requests_get USERS_URL;
  raise_for_status response ;;
  users ← response_json response;
  n ← eval (py_len users);
  print (MsgFound n "users") ;;
  items ← eval (py_iter users);
  for_each items (λ user, row ← eval (user_record user); yield row).

(** The dict that [load_posts] yields. *)
Record post_row := PostRow {
  post_id : pyval;
  post_user_id : pyval;
  title : pyval;
  body : pyval
}.

Definition post_record (post : pyval) : result post_row :=
  v1 ← py_path post [lit "id"];
  v2 ← py_path post [lit "userId"];
  v3 ← py_path post [lit "title"];
  v4 ← py_path post [lit "body"];
  mret (PostRow v1 v2 v3 v4).

Definition load_posts : Gen post_row unit :=
  print (MsgFetching "posts") ;;
  response ← requests_get POSTS_URL;
  raise_for_status response ;;
  posts ← response_json response;
  n ← eval (py_len posts);
  print (MsgFound n "posts") ;;
  items ← eval (py_iter posts);
  for_each items (λ post, row ← eval (post_record post); yield row).

End SimplePipeline.

(** ** 02_incremental_load.py *)

Module IncrementalLoad.

(** The dict that [load_posts_incremental] yields. *)
Record post_row := PostRow {
  post_id : pyval;
  user_id : pyval;
  title : pyval;
  body : pyval;
  loaded_at : pystr
}.

(** The condition of the list comprehension: [p['id'] > last_value]. *)
Definition is_new (last_value : Z) (p : pyval) : result bool :=
  id ← py_getitem p (lit "id"); py_gt_int id last_value.

(** The body of the loop over [new_posts]: the dict display, then [yield]. *)
Definition yield_post (post : pyval) : Gen post_row unit :=
  v1 ← eval (py_path post [lit "id"]);
  v2 ← eval (py_path post [lit "userId"]);
  v3 ← eval (py_path post [lit "title"]);
  v4 ← eval (py_path post [lit "body"]);
  t ← datetime_now_isoformat;
  yield (PostRow v1 v2 v3 v4 t).

(** [last_value] is [last_post_id.last_value], the cursor value the library
    hands to the resource (an [int], [initial_value=0] on the first run). *)
Definition load_posts_incremental (last_value : Z) : Gen post_row unit :=
  print (MsgFetching "posts incrementally") ;;
  print (MsgLastLoaded last_value) ;;
  response ← requests_get POSTS_URL;
  raise_for_status response ;;
  posts ← response_json response;
  items ← eval (py_iter posts);
  new_posts ← eval (comprehension_if items (is_new last_value));
  n ← eval (py_len posts);
  print (MsgTotal n) ;;
  print (MsgNew (Z.of_nat (length new_posts))) ;;
  for_each new_posts yield_post.

(** Modelled from the spec: the cursor store of the ingestion library, which
    is not part of the repository.  The spec: "retain input records whose
    identifier exceeds a previously stored high-water mark; after processing,
    advance the mark to the maximum identifier seen."  The identifiers the
    library sees are the [post_id]s of the records yielded; advancing never
    lowers the mark. *)
Definition advance_mark (last_value : Z) (rows : list post_row) : Z :=
  foldl (λ mark row,
           match post_id row with
           | PyInt i => Z.max mark i
           | _ => mark
           end) last_value rows.

(** The dict that [load_users_with_timestamp] yields. *)
Record user_row := UserRow {
  u_user_id : pyval;
  name : pyval;
  username : pyval;
  email : pyval;
  city : pyval;
  company_name : pyval;
  u_loaded_at : pystr;
  updated_at : pystr
}.

Definition yield_user (user : pyval) : Gen user_row unit :=
  v1 ← eval (py_path user [lit "id"]);
  v2 ← eval (py_path user [lit "name"]);
  v3 ← eval (py_path user [lit "username"]);
  v4 ← eval (py_path user [lit "email"]);
  v5 ← eval (py_path user [lit "address"; lit "city"]);
  v6 ← eval (py_path user [lit "company"; lit "name"]);
  t1 ← datetime_now_isoformat;
  t2 ← datetime_now_isoformat;
  yield (UserRow v1 v2 v3 v4 v5 v6 t1 t2).

Definition load_users_with_timestamp : Gen user_row unit :=
  print (MsgFetching "users") ;;
  response ← requests_get USERS_URL;
  raise_for_status response ;;
  users ← response_json response;
  n ← eval (py_len users);
  print (MsgFound n "users") ;;
  items ← eval (py_iter users);
  for_each items yield_user.

End IncrementalLoad.

(** ** bigquery_pipeline.py *)

Module BigQueryPipeline.

(** [os.getenv(key, default)] *)
Definition getenv (w : world) (key default : string) : string :=
  match environ w !! key with
  | Some v => v
  | None => default
  end.

(** The module constants, set from the environment when the script starts. *)
Definition BIGQUERY_CREDENTIALS (w : world) : string :=
  getenv w "BIGQUERY_CREDENTIALS_PATH"
    "./phase3_warehouses/credentials/bigquery-key.json".
Definition BIGQUERY_PROJECT_ID (w : world) : string :=
  getenv w "BIGQUERY_PROJECT_ID" "your-project-id".
Definition BIGQUERY_DATASET (w : world) : string :=
  getenv w "BIGQUERY_DATASET" "api_ingestion".

(** A function that neither yields nor is iterated. *)
Abbreviation IO := (Gen Empty_set).

(** [Path(p).exists()] *)
Definition Path_exists (p : string) : IO bool :=
  λ w s, Run [] (State (log s) (S (ticks s))) (Done (path_exists w (ticks s) p)).

(** Reading a module constant. *)
Definition constant {A} (c : world → A) : IO A := λ w s, Run [] s (Done (c w)).

Definition check_bigquery_setup : IO bool :=
  credentials_path ← constant BIGQUERY_CREDENTIALS;
  project ← constant BIGQUERY_PROJECT_ID;
  dataset ← constant BIGQUERY_DATASET;
  print MsgSetupCheck ;;
  let checks_passed := true in
  found ← Path_exists credentials_path;
  print (MsgCredentials found credentials_path) ;;
  let checks_passed := if found : bool then checks_passed else false in
  let configured := bool_decide (project ≠ "your-project-id") in
  print (MsgProject configured project) ;;
  let checks_passed := if configured then checks_passed else false in
  print (MsgDataset dataset) ;;
  (if negb checks_passed then print MsgSetupRequired else mret tt) ;;
  mret checks_passed.

(** The dict that [load_users] yields. *)
Record user_row := UserRow {
  user_id : pyval;
  name : pyval;
  username : pyval;
  email : pyval;
  phone : pyval;
  website : pyval;
  city : pyval;
  zipcode : pyval;
  latitude : spec_float;
  longitude : spec_float;
  company_name : pyval;
  u_loaded_at : pystr
}.

(** The dict that [load_posts] yields. *)
Record post_row := PostRow {
  post_id : pyval;
  p_user_id : pyval;
  title : pyval;
  body : pyval;
  title_length : Z;
  body_length : Z;
  loaded_at : pystr
}.

Definition yield_post (post : pyval) : Gen post_row unit :=
  v1 ← eval (py_path post [lit "id"]);
  v2 ← eval (py_path post [lit "userId"]);
  v3 ← eval (py_path post [lit "title"]);
  v4 ← eval (py_path post [lit "body"]);
  n3 ← eval (t ← py_path post [lit "title"]; py_len t);
  n4 ← eval (b ← py_path post [lit "body"]; py_len b);
  t ← datetime_now_isoformat;
  yield (PostRow v1 v2 v3 v4 n3 n4 t).

Definition load_posts : Gen post_row unit :=
  print (MsgFetching "posts") ;;
  response ← requests_get POSTS_URL;
  raise_for_status response ;;
  posts ← response_json response;
  n ← eval (py_len posts);
  print (MsgFound n "posts") ;;
  items ← eval (py_iter posts);
  for_each items yield_post.

(** Running a generator to its end, as the consumer of the resource does:
    the records come back as a list, an exception goes on to the caller. *)
Definition drain {Y Y'} (g : Gen Y unit) : Gen Y' (list Y) :=
  λ w s,
    let r := g w s in
    match outcome r with
    | Done _ => Run [] (final r) (Done (yields r))
    | Raised e => Run [] (final r) (Raised e)
    end.

(** [try: body except Exception as e: handler(e)]: only an instance of
    [Exception] is caught. *)
Definition try_except_Exception {Y A}
    (body : Gen Y A) (handler : exn → Gen Y A) : Gen Y A :=
  λ w s,
    let r := body w s in
    match outcome r with
    | Done _ => r
    | Raised e =>
        if is_Exception e then
          let r' := handler e w (final r) in
          Run (yields r ++ yields r') (final r') (outcome r')
        else r
    end.

Section WithFloat.

(** The builtin [float(x)], which is not modelled: its result for each
    argument, or the exception it raises. *)
Variable py_float : pyval → result spec_float.

Definition yield_user (user : pyval) : Gen user_row unit :=
  v1 ← eval (py_path user [lit "id"]);
  v2 ← eval (py_path user [lit "name"]);
  v3 ← eval (py_path user [lit "username"]);
  v4 ← eval (py_path user [lit "email"]);
  v5 ← eval (py_path user [lit "phone"]);
  v6 ← eval (py_path user [lit "website"]);
  v7 ← eval (py_path user [lit "address"; lit "city"]);
  v8 ← eval (py_path user [lit "address"; lit "zipcode"]);
  v9 ← eval (x ← py_path user [lit "address"; lit "geo"; lit "lat"]; py_float x);
  v10 ← eval (x ← py_path user [lit "address"; lit "geo"; lit "lng"]; py_float x);
  v11 ← eval (py_path user [lit "company"; lit "name"]);
  t ← datetime_now_isoformat;
  yield (UserRow v1 v2 v3 v4 v5 v6 v7 v8 v9 v10 v11 t).

Definition load_users : Gen user_row unit :=
  print (MsgFetching "users") ;;
  response ← requests_get USERS_URL;
  raise_for_status response ;;
  users ← response_json response;
  n ← eval (py_len users);
  print (MsgFound n "users") ;;
  items ← eval (py_iter users);
  for_each items yield_user.

(** The arguments of [dlt.pipeline(...)] in [run_bigquery_pipeline]. *)
Definition pipeline_arguments (w : world) : pipeline_config :=
  {| pipeline_name := "jsonplaceholder_to_bigquery";
     credentials := BIGQUERY_CREDENTIALS w;
     location := "US";
     dataset_name := BIGQUERY_DATASET w |}.

(** [dlt.pipeline(...)] *)
Definition dlt_pipeline_call (c : pipeline_config) : IO pipeline_config :=
  λ w s,
    let s' := State (log s ++ [CreatePipeline c]) (S (ticks s)) in
    match dlt_pipeline w (ticks s) c with
    | Some e => Run [] s' (Raised e)
    | None => Run [] s' (Done c)
    end.

(** The library's loading of the extracted records. *)
Definition dlt_load_call (c : pipeline_config) : IO (list (list string)) :=
  λ w s, Run [] (State (log s) (S (ticks s))) (dlt_load w (ticks s) c).

(** The source: the list [[load_users(), load_posts()]] of the two
    resources, not yet run. *)
Definition jsonplaceholder_source
  : Gen user_row unit * Gen post_row unit :=
  (load_users, load_posts).

(** Modelled from the spec: [pipeline.run(source)] belongs to the ingestion
    library, which is not part of the repository; only the call is in the
    source.  The call is logged with the pipeline it is made on; what the
    library then does follows the spec's words, "single-threaded, synchronous,
    sequential HTTP calls followed by synchronous database writes": the
    resources of the source are run one after the other, in the order of the
    list, and what they yield is loaded afterwards; here an exception of a
    resource ends the run and goes to the caller as it is (the library may
    wrap it in an exception of its own). *)
Definition pipeline_run (c : pipeline_config)
    (source : Gen user_row unit * Gen post_row unit)
  : IO (list (list string)) :=
  emit (RunPipeline c) ;;
  users ← drain source.1;
  posts ← drain source.2;
  dlt_load_call c.

Definition run_bigquery_pipeline : IO pipeline_config :=
  project ← constant BIGQUERY_PROJECT_ID;
  dataset ← constant BIGQUERY_DATASET;
  print MsgRunning ;;
  arguments ← constant pipeline_arguments;
  pipeline ← dlt_pipeline_call arguments;
  print (MsgConfiguration (pipeline_name pipeline) project dataset) ;;
  print MsgStarting ;;
  load_packages ← pipeline_run pipeline jsonplaceholder_source;
  print MsgLoadCompleted ;;
  for_each load_packages (λ package,
    for_each package (λ table_name, print (MsgTable project dataset table_name))) ;;
  print (MsgQueries project dataset) ;;
  mret pipeline.

Definition demonstrate_bigquery_features : IO unit := print MsgFeatures.

Definition show_cost_estimation : IO unit := print MsgCost.

Definition main : IO unit :=
  print MsgBanner ;;
  ok ← check_bigquery_setup;
  if negb ok : bool then
    print MsgCompleteSetupFirst
  else
    demonstrate_bigquery_features ;;
    show_cost_estimation ;;
    try_except_Exception
      (pipeline ← run_bigquery_pipeline; print MsgSuccess)
      (λ e, print (MsgError e) ;; print MsgTroubleshooting).

End WithFloat.

End BigQueryPipeline.

(** ** Notions the properties are stated with *)

(** The value under a chain of keys in nested dicts, if every key is there:
    what [v[k1][k2]...] evaluates to when it does not raise. *)
Fixpoint at_path (v : pyval) (ks : list pystr) : option pyval :=
  match ks with
  | [] => Some v
  | k :: ks' =>
      match v with
      | PyDict d => x ← dict_get d k; at_path x ks'
      | _ => None
      end
  end.

(** The extractor functions of the three scripts. *)
Inductive extractor :=
  | Simple_load_users
  | Simple_load_posts
  | Incremental_load_posts (last_value : Z)
  | Incremental_load_users
  | BigQuery_load_users (py_float : pyval → result spec_float)
  | BigQuery_load_posts.

(** The type of the records an extractor yields. *)
Definition record_of (x : extractor) : Type :=
  match x with
  | Simple_load_users => SimplePipeline.user_row
  | Simple_load_posts => SimplePipeline.post_row
  | Incremental_load_posts _ => IncrementalLoad.post_row
  | Incremental_load_users => IncrementalLoad.user_row
  | BigQuery_load_users _ => BigQueryPipeline.user_row
  | BigQuery_load_posts => BigQueryPipeline.post_row
  end.

Definition extract (x : extractor) : Gen (record_of x) unit :=
  match x with
  | Simple_load_users => SimplePipeline.load_users
  | Simple_load_posts => SimplePipeline.load_posts
  | Incremental_load_posts last_value =>
      IncrementalLoad.load_posts_incremental last_value
  | Incremental_load_users => IncrementalLoad.load_users_with_timestamp
  | BigQuery_load_users py_float => BigQueryPipeline.load_users py_float
  | BigQuery_load_posts => BigQueryPipeline.load_posts
  end.

(** The endpoint an extractor reads. *)
Definition endpoint (x : extractor) : string :=
  match x with
  | Simple_load_users | Incremental_load_users | BigQuery_load_users _ =>
      USERS_URL
  | Simple_load_posts | Incremental_load_posts _ | BigQuery_load_posts =>
      POSTS_URL
  end.

(** The URLs requested, in order. *)
Definition requests_of (l : list event) : list string :=
  omap (λ ev, match ev with HttpGet url => Some url | _ => None end) l.

(** [emits w P Q g]: from any state, what [g] adds to the log in the world
    [w] satisfies [P], event by event, and a value it returns satisfies [Q]. *)
Definition emits {Y A} (w : world) (P : event → Prop) (Q : A → Prop)
    (g : Gen Y A) : Prop :=
  ∀ s, ∃ new,
    log (final (g w s)) = log s ++ new ∧ Forall P new ∧
    ∀ a, outcome (g w s) = Done a → Q a.

(** The chains of keys [load_users] of [01_simple_pipeline.py] reads, and the
    fields of the record it yields, in the order of the dict display. *)
Definition user_paths : list (list pystr) :=
  [ [lit "id"]; [lit "name"]; [lit "username"]; [lit "email"]; [lit "phone"];
    [lit "website"];
    [lit "address"; lit "street"]; [lit "address"; lit "suite"];
    [lit "address"; lit "city"]; [lit "address"; lit "zipcode"];
    [lit "address"; lit "geo"; lit "lat"]; [lit "address"; lit "geo"; lit "lng"];
    [lit "company"; lit "name"]; [lit "company"; lit "catchPhrase"];
    [lit "company"; lit "bs"] ].

Definition user_fields (r : SimplePipeline.user_row) : list pyval :=
  let (v1, v2, v3, v4, v5, v6, v7, v8, v9, v10, v11, v12, v13, v14, v15) := r in
  [v1; v2; v3; v4; v5; v6; v7; v8; v9; v10; v11; v12; v13; v14; v15].

(** A user object that contains the expected nested keys. *)
Definition has_expected_keys (u : pyval) : Prop :=
  Forall (λ ks, is_Some (at_path u ks)) user_paths.

(** The values under those keys are scalars, as in the API's user objects. *)
Definition scalar_leaves (u : pyval) : Prop :=
  Forall (λ ks, ∀ x, at_path u ks = Some x → is_scalar x = true) user_paths.

(** Each field of the record is the value under the corresponding keys. *)
Definition projects (u : pyval) (r : SimplePipeline.user_row) : Prop :=
  at_path u <$> user_paths = Some <$> user_fields r.

(** A record whose fields are all scalars: depth one, key to scalar. *)
Definition flat_row (r : SimplePipeline.user_row) : Prop :=
  Forall (λ v, is_scalar v = true) (user_fields r).

(** A post object: an integer [id], and a [userId], a [title] and a [body]. *)
Definition well_formed_post (p : pyval) : Prop :=
  (∃ i, at_path p [lit "id"] = Some (PyInt i)) ∧
  is_Some (at_path p [lit "userId"]) ∧
  is_Some (at_path p [lit "title"]) ∧
  is_Some (at_path p [lit "body"]).

(** The identifier of the post strictly exceeds [last_value]. *)
Definition exceeds (last_value : Z) (p : pyval) : bool :=
  match at_path p [lit "id"] with
  | Some (PyInt i) => bool_decide (last_value < i)
  | _ => false
  end.

(** The row is the post reshaped: its four data fields are the post's. *)
Definition reshaped (p : pyval) (row : IncrementalLoad.post_row) : Prop :=
  at_path p [lit "id"] = Some (IncrementalLoad.post_id row) ∧
  at_path p [lit "userId"] = Some (IncrementalLoad.user_id row) ∧
  at_path p [lit "title"] = Some (IncrementalLoad.title row) ∧
  at_path p [lit "body"] = Some (IncrementalLoad.body row).

(** What holds between a post and the record [load_posts] of
    [bigquery_pipeline.py] yields for it. *)
Definition measured (post : pyval) (row : BigQueryPipeline.post_row) : Prop :=
  at_path post [lit "id"] = Some (BigQueryPipeline.post_id row) ∧
  at_path post [lit "title"] = Some (BigQueryPipeline.title row) ∧
  at_path post [lit "body"] = Some (BigQueryPipeline.body row) ∧
  py_len (BigQueryPipeline.title row) = Done (BigQueryPipeline.title_length row) ∧
  py_len (BigQueryPipeline.body row) = Done (BigQueryPipeline.body_length row).

(** The events of [run_bigquery_pipeline]: its first [print], the creation
    and the run of the pipeline, the requests of the extractors. *)
Definition pipeline_activity (ev : event) : Prop :=
  match ev with
  | Print MsgRunning | CreatePipeline _ | RunPipeline _ | HttpGet _ => True
  | _ => False
  end.

(** What [check_bigquery_setup] prints, given what it finds. *)
Definition setup_report (w : world) (found : bool) : list event :=
  let configured :=
    bool_decide (BigQueryPipeline.BIGQUERY_PROJECT_ID w ≠ "your-project-id") in
  [ Print MsgSetupCheck;
    Print (MsgCredentials found (BigQueryPipeline.BIGQUERY_CREDENTIALS w));
    Print (MsgProject configured (BigQueryPipeline.BIGQUERY_PROJECT_ID w));
    Print (MsgDataset (BigQueryPipeline.BIGQUERY_DATASET w)) ] ++
  (if found && configured then [] else [Print MsgSetupRequired]).

(** The state in which [main] calls [run_bigquery_pipeline], when the setup
    check has passed. *)
Definition pipeline_entry (w : world) (s : state) : state :=
  State (log s ++ [Print MsgBanner] ++ setup_report w true
           ++ [Print MsgFeatures; Print MsgCost])
        (S (ticks s)).

(** The messages that do not report the configuration. *)
Definition narration (m : message) : Prop :=
  match m with
  | MsgConfiguration _ _ _ | MsgTable _ _ _ | MsgQueries _ _ => False
  | _ => True
  end.

(** The three variables [bigquery_pipeline.py] reads. *)
Definition bigquery_variables : list string :=
  ["BIGQUERY_CREDENTIALS_PATH"; "BIGQUERY_PROJECT_ID"; "BIGQUERY_DATASET"].

(** An event agrees with the configuration read from the environment: a
    pipeline is created and run with the credentials and the dataset of the
    environment, and the messages name its project and its dataset. *)
Definition configured_from (w : world) (ev : event) : Prop :=
  match ev with
  | CreatePipeline c | RunPipeline c =>
      c = PipelineConfig "jsonplaceholder_to_bigquery"
            (BigQueryPipeline.BIGQUERY_CREDENTIALS w) "US"
            (BigQueryPipeline.BIGQUERY_DATASET w)
  | Print (MsgConfiguration _ project dataset)
  | Print (MsgTable project dataset _)
  | Print (MsgQueries project dataset) =>
      project = BigQueryPipeline.BIGQUERY_PROJECT_ID w ∧
      dataset = BigQueryPipeline.BIGQUERY_DATASET w
  | _ => True
  end.

(** Sample data, in the shape of the API's. *)
Module Sample.

Definition user (id : Z) (nm : string) : pyval :=
  PyDict
    [ (lit "id", PyInt id); (lit "name", PyStr (lit nm));
      (lit "username", PyStr (lit "Bret"));
      (lit "email", PyStr (lit "Sincere@april.biz"));
      (lit "address", PyDict
         [ (lit "street", PyStr (lit "Kulas Light"));
           (lit "suite", PyStr (lit "Apt. 556"));
           (lit "city", PyStr (lit "Gwenborough"));
           (lit "zipcode", PyStr (lit "92998-3874"));
           (lit "geo", PyDict [ (lit "lat", PyStr (lit "-37.3159"));
                                (lit "lng", PyStr (lit "81.1496")) ]) ]);
      (lit "phone", PyStr (lit "1-770-736-8031 x56442"));
      (lit "website", PyStr (lit "hildegard.org"));
      (lit "company", PyDict
         [ (lit "name", PyStr (lit "Romaguera-Crona"));
           (lit "catchPhrase", PyStr (lit "Multi-layered client-server neural-net"));
           (lit "bs", PyStr (lit "harness real-time e-markets")) ]) ].

Definition users : list pyval := [user 1 "Leanne Graham"; user 2 "Ervin Howell"].

Definition post (id user_id : Z) (title body : string) : pyval :=
  PyDict [ (lit "userId", PyInt user_id); (lit "id", PyInt id);
           (lit "title", PyStr (lit title)); (lit "body", PyStr (lit body)) ].

Definition posts : list pyval :=
  [ post 1 1 "sunt aut facere" "quia et suscipit";
    post 2 1 "qui est esse" "est rerum tempore vitae";
    post 3 2 "ea molestias" "et iusto sed quo iure" ].

(** A world in which both endpoints answer with the given status and the
    sample data, every path exists, and the library never fails. *)
Definition world_with (status : Z) (env : gmap string string) : world :=
  {| environ := env;
     http := λ _ url,
       if decide (url = USERS_URL) then Response status (Some (PyList users))
       else Response status (Some (PyList posts));
     now_isoformat := λ t, lit "2024-01-01T00:00:0" ++ [N.of_nat (48 + t)];
     path_exists := λ _ _, true;
     dlt_pipeline := λ _ _, None;
     dlt_load := λ _ _, Done [["users"; "posts"]] |}.

Definition start : state := State [] 0.

(** An environment in which the project is set. *)
Definition configured : gmap string string :=
  {[ "BIGQUERY_PROJECT_ID" := "tutorial-project" ]}.

(** The same world, but the user interrupts the script (Ctrl-C) while
    [dlt.pipeline(...)] runs. *)
Definition world_interrupted : world :=
  {| environ := configured;
     http := http (world_with 200 configured);
     now_isoformat := now_isoformat (world_with 200 configured);
     path_exists := λ _ _, true;
     dlt_pipeline := λ _ _, Some KeyboardInterrupt;
     dlt_load := λ _ _, Done [] |}.

End Sample.

(** ** Notions for the further properties *)

(** A dict or a str with nothing in it: the values other than a list that
    [len] and [for] accept and that hold no item. *)
Definition empty_container (v : pyval) : bool :=
  match v with
  | PyDict [] | PyStr [] => true
  | _ => false
  end.

(** A post object with the four keys [load_posts] reads. *)
Definition post_has_keys (p : pyval) : Prop :=
  is_Some (at_path p [lit "id"]) ∧
  is_Some (at_path p [lit "userId"]) ∧
  is_Some (at_path p [lit "title"]) ∧
  is_Some (at_path p [lit "body"]).

(** The record of [load_posts] of [01_simple_pipeline.py] carries the four
    values of the post. *)
Definition copied (p : pyval) (row : SimplePipeline.post_row) : Prop :=
  at_path p [lit "id"] = Some (SimplePipeline.post_id row) ∧
  at_path p [lit "userId"] = Some (SimplePipeline.post_user_id row) ∧
  at_path p [lit "title"] = Some (SimplePipeline.title row) ∧
  at_path p [lit "body"] = Some (SimplePipeline.body row).

(** The exceptions a subscript with a key raises. *)
Definition subscript_error (e : exn) : Prop :=
  e = TypeError ∨ ∃ k, e = KeyError k.

(** A post object with an integer [id]. *)
Definition has_int_id (p : pyval) : Prop :=
  ∃ i, at_path p [lit "id"] = Some (PyInt i).

(** Two rows of [load_posts_incremental] with the same data (the time of
    loading apart). *)
Definition same_post (r1 r2 : IncrementalLoad.post_row) : Prop :=
  IncrementalLoad.post_id r1 = IncrementalLoad.post_id r2 ∧
  IncrementalLoad.user_id r1 = IncrementalLoad.user_id r2 ∧
  IncrementalLoad.title r1 = IncrementalLoad.title r2 ∧
  IncrementalLoad.body r1 = IncrementalLoad.body r2.

(** A user object with the keys [load_users_with_timestamp] reads. *)
Definition has_timestamp_keys (u : pyval) : Prop :=
  is_Some (at_path u [lit "id"]) ∧
  is_Some (at_path u [lit "name"]) ∧
  is_Some (at_path u [lit "username"]) ∧
  is_Some (at_path u [lit "email"]) ∧
  is_Some (at_path u [lit "address"; lit "city"]) ∧
  is_Some (at_path u [lit "company"; lit "name"]).

(** The record of [load_users_with_timestamp] for the user [u], when the
    clock is read for it at [t] and [t + 1]. *)
Definition stamped (w : world) (t : nat) (u : pyval)
    (r : IncrementalLoad.user_row) : Prop :=
  at_path u [lit "id"] = Some (IncrementalLoad.u_user_id r) ∧
  at_path u [lit "name"] = Some (IncrementalLoad.name r) ∧
  at_path u [lit "username"] = Some (IncrementalLoad.username r) ∧
  at_path u [lit "email"] = Some (IncrementalLoad.email r) ∧
  at_path u [lit "address"; lit "city"] = Some (IncrementalLoad.city r) ∧
  at_path u [lit "company"; lit "name"] = Some (IncrementalLoad.company_name r) ∧
  IncrementalLoad.u_loaded_at r = now_isoformat w t ∧
  IncrementalLoad.updated_at r = now_isoformat w (S t).

(** A user object [load_users] of [bigquery_pipeline.py] can turn into a
    record: the keys it reads are there, and [float] accepts the latitude and
    the longitude. *)
Definition convertible (py_float : pyval → result spec_float) (u : pyval) : Prop :=
  is_Some (at_path u [lit "id"]) ∧
  is_Some (at_path u [lit "name"]) ∧
  is_Some (at_path u [lit "username"]) ∧
  is_Some (at_path u [lit "email"]) ∧
  is_Some (at_path u [lit "phone"]) ∧
  is_Some (at_path u [lit "website"]) ∧
  is_Some (at_path u [lit "address"; lit "city"]) ∧
  is_Some (at_path u [lit "address"; lit "zipcode"]) ∧
  (∃ x f, at_path u [lit "address"; lit "geo"; lit "lat"] = Some x ∧
          py_float x = Done f) ∧
  (∃ x f, at_path u [lit "address"; lit "geo"; lit "lng"] = Some x ∧
          py_float x = Done f) ∧
  is_Some (at_path u [lit "company"; lit "name"]).

(** The record of [load_users] of [bigquery_pipeline.py] for the user [u],
    loaded at the clock reading [t]. *)
Definition converted (py_float : pyval → result spec_float) (w : world) (t : nat)
    (u : pyval) (r : BigQueryPipeline.user_row) : Prop :=
  at_path u [lit "id"] = Some (BigQueryPipeline.user_id r) ∧
  at_path u [lit "name"] = Some (BigQueryPipeline.name r) ∧
  at_path u [lit "username"] = Some (BigQueryPipeline.username r) ∧
  at_path u [lit "email"] = Some (BigQueryPipeline.email r) ∧
  at_path u [lit "phone"] = Some (BigQueryPipeline.phone r) ∧
  at_path u [lit "website"] = Some (BigQueryPipeline.website r) ∧
  at_path u [lit "address"; lit "city"] = Some (BigQueryPipeline.city r) ∧
  at_path u [lit "address"; lit "zipcode"] = Some (BigQueryPipeline.zipcode r) ∧
  (∃ x, at_path u [lit "address"; lit "geo"; lit "lat"] = Some x ∧
        py_float x = Done (BigQueryPipeline.latitude r)) ∧
  (∃ x, at_path u [lit "address"; lit "geo"; lit "lng"] = Some x ∧
        py_float x = Done (BigQueryPipeline.longitude r)) ∧
  at_path u [lit "company"; lit "name"] = Some (BigQueryPipeline.company_name r) ∧
  BigQueryPipeline.u_loaded_at r = now_isoformat w t.

(** The keys [load_users] of [bigquery_pipeline.py] reads before it converts
    the latitude. *)
Definition has_keys_before_latitude (u : pyval) : Prop :=
  is_Some (at_path u [lit "id"]) ∧
  is_Some (at_path u [lit "name"]) ∧
  is_Some (at_path u [lit "username"]) ∧
  is_Some (at_path u [lit "email"]) ∧
  is_Some (at_path u [lit "phone"]) ∧
  is_Some (at_path u [lit "website"]) ∧
  is_Some (at_path u [lit "address"; lit "city"]) ∧
  is_Some (at_path u [lit "address"; lit "zipcode"]).

(** A post object whose [title] and [body] have a length. *)
Definition measurable (p : pyval) : Prop :=
  is_Some (at_path p [lit "id"]) ∧
  is_Some (at_path p [lit "userId"]) ∧
  (∃ t n, at_path p [lit "title"] = Some t ∧ py_len t = Done n) ∧
  (∃ b n, at_path p [lit "body"] = Some b ∧ py_len b = Done n).

(** The builtin [float] on the arguments the examples give it: a float is
    returned as it is, and [None], a list or a dict is rejected with
    [TypeError].  On a str, an int or a bool, which [float] converts or
    rejects by their digits, this stand-in answers with an error of its own;
    the examples give it no such argument. *)
Definition float_of_float (v : pyval) : result spec_float :=
  match v with
  | PyFloat f => Done f
  | PyNone | PyList _ | PyDict _ => Raised TypeError
  | PyStr _ | PyInt _ | PyBool _ =>
      Raised (LibraryError "float of a str, an int or a bool is not modelled")
  end.

(** The record of [load_posts] of [bigquery_pipeline.py] for the post [p],
    loaded at the clock reading [t]. *)
Definition loaded (w : world) (t : nat) (p : pyval)
    (r : BigQueryPipeline.post_row) : Prop :=
  measured p r ∧
  at_path p [lit "userId"] = Some (BigQueryPipeline.p_user_id r) ∧
  BigQueryPipeline.loaded_at r = now_isoformat w t.

(** A user object with the given coordinates. *)
Definition located_user (id : Z) (lat lng : pyval) : pyval :=
  PyDict
    [ (lit "id", PyInt id); (lit "name", PyStr (lit "Leanne Graham"));
      (lit "username", PyStr (lit "Bret"));
      (lit "email", PyStr (lit "Sincere@april.biz"));
      (lit "address", PyDict
         [ (lit "city", PyStr (lit "Gwenborough"));
           (lit "zipcode", PyStr (lit "92998-3874"));
           (lit "geo", PyDict [ (lit "lat", lat); (lit "lng", lng) ]) ]);
      (lit "phone", PyStr (lit "1-770-736-8031 x56442"));
      (lit "website", PyStr (lit "hildegard.org"));
      (lit "company", PyDict [ (lit "name", PyStr (lit "Romaguera-Crona")) ]) ].

(** A user object with all the expected keys, whose [phone] is a list of two
    numbers. *)
Definition user_with_two_phones : pyval :=
  PyDict
    [ (lit "id", PyInt 1); (lit "name", PyStr (lit "Leanne Graham"));
      (lit "username", PyStr (lit "Bret"));
      (lit "email", PyStr (lit "Sincere@april.biz"));
      (lit "address", PyDict
         [ (lit "street", PyStr (lit "Kulas Light"));
           (lit "suite", PyStr (lit "Apt. 556"));
           (lit "city", PyStr (lit "Gwenborough"));
           (lit "zipcode", PyStr (lit "92998-3874"));
           (lit "geo", PyDict [ (lit "lat", PyStr (lit "-37.3159"));
                                (lit "lng", PyStr (lit "81.1496")) ]) ]);
      (lit "phone", PyList [ PyStr (lit "1-770-736-8031");
                             PyStr (lit "010-692-6593") ]);
      (lit "website", PyStr (lit "hildegard.org"));
      (lit "company", PyDict
         [ (lit "name", PyStr (lit "Romaguera-Crona"));
           (lit "catchPhrase", PyStr (lit "Multi-layered client-server neural-net"));
           (lit "bs", PyStr (lit "harness real-time e-markets")) ]) ].

(** A world in which every request is answered with the status 200 and the
    JSON [v]. *)
Definition world_answering (v : pyval) : world :=
  World ∅ (λ _ _, Response 200 (Some v)) (λ _, []) (λ _ _, true)
        (λ _ _, None) (λ _ _, Done []).

(** A world in which the setup is complete, the users endpoint answers one
    user with float coordinates, the posts endpoint the sample posts, and
    the library loads two tables. *)
Definition warehouse_world : world :=
  {| environ := Sample.configured;
     http := λ _ url,
       if decide (url = USERS_URL)
       then Response 200 (Some (PyList
              [located_user 1 (PyFloat (S754_zero false)) (PyFloat (S754_zero true))]))
       else Response 200 (Some (PyList Sample.posts));
     now_isoformat := λ _, lit "2024-01-01T00:00:00";
     path_exists := λ _ _, true;
     dlt_pipeline := λ _ _, None;
     dlt_load := λ _ _, Done [["users"; "posts"]] |}.

(** ** The console text of [demonstrate_bigquery_features] *)

Module Narration.

(** [d[k] = v] on a dict whose keys are strs: the value of a key that is
    there is replaced where it is, a new key goes to the end. *)
Fixpoint dict_setitem {V} (d : list (string * V)) (k : string) (v : V)
  : list (string * V) :=
  match d with
  | [] => [(k, v)]
  | (k', v') :: d' =>
      if decide (k' = k) then (k', v) :: d'
      else (k', v') :: dict_setitem d' k v
  end.

(** A dict display [{k1: v1, k2: v2, ...}]: the items are entered from left
    to right. *)
Definition dict_display {V} (items : list (string * V)) : list (string * V) :=
  foldl (λ d kv, dict_setitem d kv.1 kv.2) [] items.

(** [d.get(k)] *)
Fixpoint dict_lookup {V} (d : list (string * V)) (k : string) : option V :=
  match d with
  | [] => None
  | (k', v) :: d' => if decide (k' = k) then Some v else dict_lookup d' k
  end.

(** [s * n] *)
Fixpoint str_repeat (s : string) (n : nat) : string :=
  match n with
  | O => ""
  | S n' => s +:+ str_repeat s n'
  end.

(** The newline character of ["\n"]. *)
Definition newline : string := String (ascii_of_nat 10) "".

(** The dict [features] of [demonstrate_bigquery_features], as written. *)
Definition features : list (string * list (string * string)) :=
  dict_display
    [ ("Partitioning", dict_display
         [ ("What", "Split tables by date/timestamp for faster queries");
           ("Example", "Partition by loaded_at date");
           ("Benefit", "Query only relevant partitions, save cost") ]);
      ("Clustering", dict_display
         [ ("What", "Sort data within partitions");
           ("Example", "Cluster by user_id or city");
           ("Benefit", "Even faster queries and lower cost") ]);
      ("Cost Control", dict_display
         [ ("What", "BigQuery charges by data scanned");
           ("Tip", "Use SELECT specific columns, not SELECT *");
           ("Tip", "Use WHERE clauses to filter partitions") ]);
      ("Data Types", dict_display
         [ ("What", "BigQuery has specific data types");
           ("STRING", "For text data");
           ("INT64", "For whole numbers");
           ("FLOAT64", "For decimals");
           ("TIMESTAMP", "For dates/times");
           ("GEOGRAPHY", "For location data") ]) ].

(** What the loops over a dict of dicts print: for each item a heading, then
    one line per item of its dict. *)
Definition print_sections (sections : list (string * list (string * string)))
  : list string :=
  mjoin ((λ section,
            (newline +:+ section.1 +:+ ":") ::
            ((λ kv, "  " +:+ kv.1 +:+ ": " +:+ kv.2) <$> section.2))
         <$> sections).

(** The arguments of the [print]s of [demonstrate_bigquery_features], in
    order. *)
Definition demonstrate_bigquery_features : list string :=
  [ newline +:+ str_repeat "=" 60;
    "BIGQUERY FEATURES & BEST PRACTICES";
    str_repeat "=" 60 ] ++
  print_sections features.

End Narration.

(** * Properties *)

(** ** The monad *)

Lemma run_eta {Y A} (r : run Y A) : Run (yields r) (final r) (outcome r) = r.
Proof. by destruct r. Qed.

Lemma state_eta (s : state) : State (log s) (ticks s) = s.
Proof. by destruct s. Qed.

Lemma bind_run {Y A B} (m : Gen Y A) (k : A → Gen Y B) w s :
  (m ≫= k) w s =
    match outcome (m w s) with
    | Done a =>
        Run (yields (m w s) ++ yields (k a w (final (m w s))))
            (final (k a w (final (m w s))))
            (outcome (k a w (final (m w s))))
    | Raised e => Run (yields (m w s)) (final (m w s)) (Raised e)
    end.
Proof. reflexivity. Qed.

Lemma bind_done {Y A B} (m : Gen Y A) (k : A → Gen Y B) w s a s' :
  m w s = Run [] s' (Done a) → (m ≫= k) w s = k a w s'.
Proof. intros H. rewrite bind_run, H. cbn. apply run_eta. Qed.

Lemma bind_raised {Y A B} (m : Gen Y A) (k : A → Gen Y B) w s ys s' e :
  m w s = Run ys s' (Raised e) → (m ≫= k) w s = Run ys s' (Raised e).
Proof. intros H. by rewrite bind_run, H. Qed.

Lemma requests_get_response {Y} url w s status body :
  http w (ticks s) url = Response status body →
  requests_get (Y:=Y) url w s =
    Run [] (State (log s ++ [HttpGet url]) (S (ticks s))) (Done (status, body)).
Proof. intros H. unfold requests_get. by rewrite H. Qed.

Lemma requests_get_no_response {Y} url w s e :
  http w (ticks s) url = NoResponse e →
  requests_get (Y:=Y) url w s =
    Run [] (State (log s ++ [HttpGet url]) (S (ticks s))) (Raised e).
Proof. intros H. unfold requests_get. by rewrite H. Qed.

Lemma raise_for_status_error {Y} status body w s :
  error_status status →
  raise_for_status (Y:=Y) (status, body) w s = Run [] s (Raised (HTTPError status)).
Proof. intros H. unfold raise_for_status. cbn. by rewrite decide_True. Qed.

Lemma raise_for_status_ok {Y} status body w s :
  ¬ error_status status →
  raise_for_status (Y:=Y) (status, body) w s = Run [] s (Done tt).
Proof. intros H. unfold raise_for_status. cbn. by rewrite decide_False. Qed.

Lemma at_path_py_path v ks x : at_path v ks = Some x ↔ py_path v ks = Done x.
Proof.
  revert v. induction ks as [|k ks IH]; intros v; cbn.
  - split; congruence.
  - destruct v; cbn; try (split; discriminate).
    destruct (dict_get d k) as [y|]; cbn; [apply IH | split; discriminate].
Qed.

(** ** What the runs add to the log *)

Section Emits.
Context {Y : Type} (w : world) (P : event → Prop).

Lemma emits_ret {A} (Q : A → Prop) (a : A) : Q a → emits w P Q (mret a : Gen Y A).
Proof.
  intros HQ s. exists []. cbn. rewrite app_nil_r.
  split_and!; [done | constructor | congruence].
Qed.

Lemma emits_bind {A B} (Q : A → Prop) (R : B → Prop)
    (m : Gen Y A) (k : A → Gen Y B) :
  emits w P Q m → (∀ a, Q a → emits w P R (k a)) → emits w P R (m ≫= k).
Proof.
  intros Hm Hk s. rewrite bind_run.
  destruct (Hm s) as (new & Hlog & Hnew & Hval).
  destruct (outcome (m w s)) as [a|e]; cbn.
  - destruct (Hk a (Hval a eq_refl) (final (m w s))) as (new' & Hlog' & Hnew' & Hval').
    exists (new ++ new'). rewrite Hlog', Hlog, app_assoc.
    split_and!; [done | by apply Forall_app | done].
  - exists new. split_and!; [done | done | discriminate].
Qed.

Lemma emits_raise {A} (Q : A → Prop) e : emits w P Q (raise e : Gen Y A).
Proof.
  intros s. exists []. cbn. rewrite app_nil_r.
  split_and!; [done | constructor | discriminate].
Qed.

Lemma emits_eval {A} (Q : A → Prop) (r : result A) :
  (∀ a, r = Done a → Q a) → emits w P Q (eval r : Gen Y A).
Proof.
  intros HQ. destruct r as [a|e]; [apply emits_ret; auto | apply emits_raise].
Qed.

Lemma emits_yield (Q : unit → Prop) (y : Y) : Q tt → emits w P Q (yield y).
Proof.
  intros HQ s. exists []. cbn. rewrite app_nil_r.
  split_and!; [done | constructor | by intros []].
Qed.

Lemma emits_emit (Q : unit → Prop) ev :
  P ev → Q tt → emits w P Q (emit ev : Gen Y unit).
Proof.
  intros HP HQ s. exists [ev]. cbn.
  split_and!; [done | by repeat constructor | by intros []].
Qed.

Lemma emits_print (Q : unit → Prop) m :
  P (Print m) → Q tt → emits w P Q (print m : Gen Y unit).
Proof. apply emits_emit. Qed.

Lemma emits_raise_for_status response :
  emits w P (λ _, True) (raise_for_status response : Gen Y unit).
Proof.
  unfold raise_for_status. case_decide; [apply emits_raise | by apply emits_ret].
Qed.

Lemma emits_response_json response :
  emits w P (λ _, True) (response_json response : Gen Y pyval).
Proof.
  unfold response_json.
  destruct (response.2); [by apply emits_ret | apply emits_raise].
Qed.

Lemma emits_datetime_now :
  emits w P (λ _, True) (datetime_now_isoformat : Gen Y pystr).
Proof.
  intros s. exists []. cbn. rewrite app_nil_r. by split_and!.
Qed.

Lemma emits_for_each {A} (xs : list A) (body : A → Gen Y unit) :
  (∀ x, emits w P (λ _, True) (body x)) →
  emits w P (λ _, True) (for_each xs body).
Proof.
  intros Hbody. induction xs as [|x xs IH]; cbn.
  - by apply emits_ret.
  - eapply emits_bind; [apply Hbody | auto].
Qed.

End Emits.

Create HintDb emits.
#[export] Hint Resolve emits_ret emits_raise emits_eval emits_yield
  emits_raise_for_status emits_response_json emits_datetime_now : emits.

(** The rules applied along a chain of binds; [leaf] closes the calls that
    add to the log. *)
Ltac emits_chain leaf :=
  repeat (first
    [ leaf
    | apply emits_for_each; intros ?
    | eapply (emits_bind _ _ (λ _, True)); [|intros ? _] ]);
  auto with emits.

Lemma requests_get_run {Y} url w s :
  let s' := State (log s ++ [HttpGet url]) (S (ticks s)) in
  (∃ e, requests_get (Y:=Y) url w s = Run [] s' (Raised e)) ∨
  (∃ response, requests_get (Y:=Y) url w s = Run [] s' (Done response)).
Proof. unfold requests_get. destruct (http w (ticks s) url); cbn; eauto. Qed.

(** The log of an extractor: some messages, the request to its endpoint, and
    then messages only. *)
Lemma extract_log x w (P : event → Prop) s :
  (∀ m, narration m → P (Print m)) →
  ∃ before rest,
    log (final (extract x w s)) =
      log s ++ before ++ HttpGet (endpoint x) :: rest ∧
    Forall P before ∧ Forall P rest.
Proof.
  intros Hprint.
  assert (∀ Y m, narration m → emits w P (λ _, True) (print m : Gen Y unit))
    as Hp by (intros; apply emits_print; auto).
  destruct x; cbn [extract endpoint record_of];
    unfold SimplePipeline.load_users, SimplePipeline.load_posts,
      IncrementalLoad.load_posts_incremental, IncrementalLoad.yield_post,
      IncrementalLoad.load_users_with_timestamp, IncrementalLoad.yield_user,
      BigQueryPipeline.load_users, BigQueryPipeline.yield_user,
      BigQueryPipeline.load_posts, BigQueryPipeline.yield_post;
    repeat (erewrite bind_done by reflexivity);
    match goal with |- context [(@requests_get ?Y ?url ≫= ?k) w ?s1] =>
      destruct (requests_get_run (Y:=Y) url w s1) as [[e Hget]|[response Hget]];
      [ erewrite bind_raised by exact Hget
      | erewrite bind_done by exact Hget;
        match goal with |- context [final (?g w ?s2)] =>
          let Hg := fresh "Hg" in
          assert (emits w P (λ _, True) g) as Hg
            by (emits_chain ltac:(by apply Hp));
          destruct (Hg s2) as (rest & -> & Hrest & _)
        end ]
    end;
    cbn [log final];
    first
      [ (eexists [_], _; split_and!;
           [rewrite <- !app_assoc; reflexivity | | eassumption || constructor])
      | (eexists [_; _], _; split_and!;
           [rewrite <- !app_assoc; reflexivity | | eassumption || constructor]) ];
    repeat (constructor; [by apply Hprint|]); constructor.
Qed.

Lemma extract_emits x w (P : event → Prop) :
  (∀ m, narration m → P (Print m)) → P (HttpGet (endpoint x)) →
  emits w P (λ _, True) (extract x).
Proof.
  intros Hprint Hget s.
  destruct (extract_log x w P s Hprint) as (before & rest & Hlog & Hb & Hr).
  exists (before ++ HttpGet (endpoint x) :: rest).
  split_and!; [done | | done].
  apply Forall_app. split; [done | by constructor].
Qed.

(** ** The endpoints (C5) *)

Lemma requests_of_none l :
  Forall (λ ev, requests_of [ev] = []) l → requests_of l = [].
Proof.
  induction 1 as [|ev l Hev _ IH]; [done|].
  change (ev :: l) with ([ev] ++ l). unfold requests_of in *.
  by rewrite omap_app, Hev, IH.
Qed.

(** C5.  Whatever the world answers, every HTTP request an extractor function
    issues is a GET ([requests.get], the only kind of request event there is)
    to the users list or to the posts list of the JSONPlaceholder API: the
    events a run adds to the log contain no request to any other URL.  (Each
    run issues one request, to the endpoint of its extractor.) *)
Theorem extractors_request_fixed_endpoints (x : extractor) (w : world) (s : state) :
  ∃ new,
    log (final (extract x w s)) = log s ++ new ∧
    (∀ url, HttpGet url ∈ new →
       url = "https://jsonplaceholder.typicode.com/users" ∨
       url = "https://jsonplaceholder.typicode.com/posts") ∧
    requests_of new = [endpoint x].
Proof.
  destruct (extract_log x w (λ ev, requests_of [ev] = []) s)
    as (before & rest & Hlog & Hbefore & Hrest); [by intros []|].
  assert (requests_of (before ++ HttpGet (endpoint x) :: rest) = [endpoint x])
    as Hrequests.
  { change (HttpGet (endpoint x) :: rest) with ([HttpGet (endpoint x)] ++ rest).
    pose proof (requests_of_none before Hbefore) as Hb.
    pose proof (requests_of_none rest Hrest) as Hr.
    unfold requests_of in *. by rewrite !omap_app, Hb, Hr. }
  eexists. split_and!; [exact Hlog | | exact Hrequests].
  intros url Hurl.
  assert (url ∈ requests_of (before ++ HttpGet (endpoint x) :: rest)) as Hin.
  { unfold requests_of. apply list_elem_of_omap. by exists (HttpGet url). }
  rewrite Hrequests in Hin. apply list_elem_of_singleton in Hin as ->.
  destruct x; cbn; auto.
Qed.

(** ** Error statuses (C3) *)

Ltac unfold_extractors :=
  unfold SimplePipeline.load_users, SimplePipeline.load_posts,
    IncrementalLoad.load_posts_incremental,
    IncrementalLoad.load_users_with_timestamp,
    BigQueryPipeline.load_users, BigQueryPipeline.load_posts.

(** The run of an extractor up to [raise_for_status], when the status is an
    error status. *)
Lemma extract_error_status x w s status body :
  http w (ticks s) (endpoint x) = Response status body →
  error_status status →
  yields (extract x w s) = [] ∧
  outcome (extract x w s) = Raised (HTTPError status).
Proof.
  intros Hreply Herr.
  destruct x; cbn [extract endpoint record_of] in *; unfold_extractors;
    repeat (erewrite bind_done by reflexivity);
    (erewrite bind_done by (by apply requests_get_response));
    (erewrite bind_raised by (by apply raise_for_status_error));
    done.
Qed.

(** C3, amended.  For every HTTP GET issued by an extractor function that
    gets a response: if the status of the response is a client error or a
    server error (400 to 599), the function raises [HTTPError] and yields no
    record; so records are yielded only when the status is not an error
    status.  (The statuses below 400 other than 2xx, and those from 600 on,
    are not rejected.) *)
Theorem extractors_raise_on_error_status
    (x : extractor) (w : world) (s : state) (status : Z) (body : option pyval) :
  http w (ticks s) (endpoint x) = Response status body →
  (400 ≤ status < 600 →
     yields (extract x w s) = [] ∧
     outcome (extract x w s) = Raised (HTTPError status)) ∧
  (yields (extract x w s) ≠ [] → ¬ (400 ≤ status < 600)).
Proof.
  intros Hreply. split.
  - by apply (extract_error_status x w s status body).
  - intros Hyields Herr. apply Hyields.
    by apply (extract_error_status x w s status body).
Qed.

(** A GET that comes back with the status 300 and a JSON list of users is not
    rejected by [raise_for_status]: [load_users] yields the records. *)
Lemma non_2xx_status_yields_records :
  ¬ ∀ (x : extractor) (w : world) (s : state) (status : Z) (body : option pyval),
      http w (ticks s) (endpoint x) = Response status body →
      ¬ (200 ≤ status < 300) →
      yields (extract x w s) = [] ∧ ∃ e, outcome (extract x w s) = Raised e.
Proof.
  intros H.
  destruct (H Simple_load_users (Sample.world_with 300 ∅) Sample.start 300
              (Some (PyList Sample.users))) as [Hyields _].
  - reflexivity.
  - lia.
  - vm_compute in Hyields. discriminate.
Qed.

Lemma extractors_raise_on_error_status_witness :
  http (Sample.world_with 404 ∅) (ticks Sample.start)
       (endpoint (Incremental_load_posts 0)) =
    Response 404 (Some (PyList Sample.posts)) ∧
  ((400 ≤ 404 < 600 →
     yields (extract (Incremental_load_posts 0) (Sample.world_with 404 ∅) Sample.start) = [] ∧
     outcome (extract (Incremental_load_posts 0) (Sample.world_with 404 ∅) Sample.start) =
       Raised (HTTPError 404)) ∧
   (yields (extract (Incremental_load_posts 0) (Sample.world_with 404 ∅) Sample.start) ≠ [] →
     ¬ (400 ≤ 404 < 600))).
Proof.
  split; [reflexivity|].
  apply (extractors_raise_on_error_status (Incremental_load_posts 0)
           (Sample.world_with 404 ∅) Sample.start 404 (Some (PyList Sample.posts))).
  reflexivity.
Defined.

(** ** Flattening the users (C6) *)

Lemma eval_done {Y A} (r : result A) a w s :
  r = Done a → eval (Y:=Y) r w s = Run [] s (Done a).
Proof. by intros ->. Qed.

Lemma eval_raised {Y A} (r : result A) e w s :
  r = Raised e → eval (Y:=Y) r w s = Run [] s (Raised e).
Proof. by intros ->. Qed.

(** A loop whose body evaluates a record and yields it. *)
Lemma for_each_eval_yield {A Y} (f : A → result Y) xs rows w s :
  Forall2 (λ x r, f x = Done r) xs rows →
  for_each xs (λ x, row ← eval (f x); yield row) w s = Run rows s (Done tt).
Proof.
  induction 1 as [|x r xs rows Hx _ IH]; [done|].
  cbn [for_each]. rewrite bind_run.
  erewrite (bind_done (eval (f x))) by (by apply eval_done).
  cbn. by rewrite IH.
Qed.

Lemma user_record_projects u :
  has_expected_keys u → ∃ r, SimplePipeline.user_record u = Done r ∧ projects u r.
Proof.
  unfold has_expected_keys, user_paths. intros H.
  repeat match type of H with
  | Forall _ (_ :: _) =>
      let x := fresh "x" in let Hx := fresh "Hx" in let Hp := fresh "Hp" in
      apply Forall_cons in H as [[x Hx] H];
      pose proof (proj1 (at_path_py_path _ _ _) Hx) as Hp
  end.
  unfold SimplePipeline.user_record.
  repeat match goal with Hp : py_path _ _ = Done _ |- _ => rewrite Hp; clear Hp end.
  cbn [mbind result_bind mret result_ret].
  eexists. split; [reflexivity|].
  unfold projects, user_paths. cbn [fmap list_fmap user_fields].
  repeat match goal with Hx : at_path _ _ = Some _ |- _ => rewrite Hx; clear Hx end.
  reflexivity.
Qed.

Lemma user_records_projects users :
  Forall has_expected_keys users →
  ∃ rows, Forall2 (λ u r, SimplePipeline.user_record u = Done r) users rows ∧
          Forall2 projects users rows.
Proof.
  induction 1 as [|u users Hu _ (rows & IH1 & IH2)].
  - exists []. by split.
  - destruct (user_record_projects u Hu) as (r & Hr & Hp).
    exists (r :: rows). split; by constructor.
Qed.

Lemma projects_flat u r : projects u r → scalar_leaves u → flat_row r.
Proof.
  unfold projects, scalar_leaves, flat_row.
  generalize user_paths (user_fields r). intros paths.
  induction paths as [|ks paths IH]; intros [|v vs] Heq Hleaves;
    try discriminate; [constructor|].
  cbn in Heq. injection Heq as Hv Hvs.
  apply Forall_cons in Hleaves as [Hks Hleaves].
  constructor; auto.
Qed.

(** The run of [load_users] on a response that is not rejected and whose
    JSON is a list of users with the expected keys. *)
Lemma load_users_run w s status users rows :
  http w (ticks s) USERS_URL = Response status (Some (PyList users)) →
  ¬ error_status status →
  Forall2 (λ u r, SimplePipeline.user_record u = Done r) users rows →
  SimplePipeline.load_users w s =
    Run rows
        (State (log s ++ [Print (MsgFetching "users")] ++ [HttpGet USERS_URL]
                  ++ [Print (MsgFound (Z.of_nat (length users)) "users")])
               (S (ticks s)))
        (Done tt).
Proof.
  intros Hreply Hstatus Hrows. unfold SimplePipeline.load_users.
  erewrite bind_done by reflexivity.
  erewrite bind_done by (by apply requests_get_response).
  erewrite bind_done by (by apply raise_for_status_ok).
  erewrite bind_done by reflexivity.
  erewrite bind_done by reflexivity.
  erewrite bind_done by reflexivity.
  erewrite bind_done by reflexivity.
  rewrite (for_each_eval_yield _ _ rows) by done.
  cbn. by rewrite <- !app_assoc.
Qed.

(** C6, amended.  When the users endpoint answers (with a status that is not
    an error status) a list of user objects that contain the expected nested
    keys, [load_users] ends normally and yields exactly one record per user,
    in the order of the input; each field of a record is the value the user
    object has under the corresponding keys ([city] is
    [user['address']['city']], [latitude] is [user['address']['geo']['lat']],
    [company_name] is [user['company']['name']], and so on for the fifteen
    fields); the record has depth one and maps its keys to scalars when the
    values under those keys are scalars (the values are copied as they are,
    so a list or a dict under an expected key is a field of the record). *)
Theorem load_users_yields_flat_records
    (w : world) (s : state) (status : Z) (users : list pyval) :
  http w (ticks s) USERS_URL = Response status (Some (PyList users)) →
  ¬ (400 ≤ status < 600) →
  Forall has_expected_keys users →
  outcome (SimplePipeline.load_users w s) = Done tt ∧
  length (yields (SimplePipeline.load_users w s)) = length users ∧
  ∀ i u, users !! i = Some u →
    ∃ r, yields (SimplePipeline.load_users w s) !! i = Some r ∧
         projects u r ∧
         at_path u [lit "address"; lit "city"] = Some (SimplePipeline.city r) ∧
         at_path u [lit "address"; lit "geo"; lit "lat"] =
           Some (SimplePipeline.latitude r) ∧
         at_path u [lit "company"; lit "name"] =
           Some (SimplePipeline.company_name r) ∧
         (scalar_leaves u → flat_row r).
Proof.
  intros Hreply Hstatus Hkeys.
  destruct (user_records_projects users Hkeys) as (rows & Hrows & Hproj).
  rewrite (load_users_run w s status users rows) by done. cbn.
  split_and!; [done | symmetry; by eapply Forall2_length |].
  intros i u Hu.
  destruct (Forall2_lookup_l _ _ _ _ _ Hproj Hu) as (r & Hr & Hp).
  exists r. split_and!; [done | done | | | | by apply projects_flat].
  all: destruct r; unfold projects, user_paths in Hp;
    cbn [fmap list_fmap user_fields] in Hp;
    cbn [SimplePipeline.city SimplePipeline.latitude SimplePipeline.company_name];
    repeat match goal with
    | H : _ :: _ = _ :: _ |- _ => injection H as ? H
    end; assumption.
Qed.

Lemma sample_users_expected : Forall has_expected_keys Sample.users.
Proof.
  repeat (constructor; [repeat (constructor; [by eexists|]); constructor|]).
  constructor.
Defined.

Lemma sample_users_scalar : Forall scalar_leaves Sample.users.
Proof.
  repeat (constructor;
          [repeat (constructor; [by intros x [= <-]|]); constructor|]).
  constructor.
Defined.

Lemma load_users_yields_flat_records_witness :
  http (Sample.world_with 200 ∅) (ticks Sample.start) USERS_URL =
    Response 200 (Some (PyList Sample.users)) ∧
  ¬ (400 ≤ 200 < 600) ∧
  Forall has_expected_keys Sample.users ∧
  Forall scalar_leaves Sample.users ∧
  outcome (SimplePipeline.load_users (Sample.world_with 200 ∅) Sample.start) = Done tt ∧
  length (yields (SimplePipeline.load_users (Sample.world_with 200 ∅) Sample.start)) =
    length Sample.users ∧
  (∀ i u, Sample.users !! i = Some u →
    ∃ r, yields (SimplePipeline.load_users (Sample.world_with 200 ∅) Sample.start) !! i
           = Some r ∧
         projects u r ∧
         at_path u [lit "address"; lit "city"] = Some (SimplePipeline.city r) ∧
         at_path u [lit "address"; lit "geo"; lit "lat"] =
           Some (SimplePipeline.latitude r) ∧
         at_path u [lit "company"; lit "name"] =
           Some (SimplePipeline.company_name r) ∧
         (scalar_leaves u → flat_row r)) ∧
  Forall flat_row
    (yields (SimplePipeline.load_users (Sample.world_with 200 ∅) Sample.start)).
Proof.
  pose proof (load_users_yields_flat_records (Sample.world_with 200 ∅) Sample.start
                200 Sample.users eq_refl ltac:(lia) sample_users_expected)
    as (Hend & Hlen & Hrows).
  split_and!; [reflexivity | lia | exact sample_users_expected
              | exact sample_users_scalar | exact Hend | exact Hlen | exact Hrows |].
  apply Forall_lookup. intros i r Hr.
  destruct (lookup_lt_is_Some_2 Sample.users i) as [u Hu].
  { rewrite <- Hlen. by eapply lookup_lt_Some. }
  destruct (Hrows i u Hu) as (r' & Hr' & _ & _ & _ & _ & Hflat).
  assert (r = r') as -> by congruence.
  apply Hflat. by eapply (Forall_lookup_1 _ _ _ _ sample_users_scalar).
Defined.

(** A user object that has every expected key, with a list under [phone]:
    the record [load_users] yields for it has that list as a field, so it
    does not map its keys to scalars. *)
Lemma list_valued_field_is_not_flat :
  ¬ ∀ (w : world) (s : state) (status : Z) (users : list pyval),
      http w (ticks s) USERS_URL = Response status (Some (PyList users)) →
      ¬ (400 ≤ status < 600) →
      Forall has_expected_keys users →
      Forall flat_row (yields (SimplePipeline.load_users w s)).
Proof.
  intros H.
  specialize (H (world_answering (PyList [user_with_two_phones])) Sample.start 200
                [user_with_two_phones] eq_refl ltac:(lia)).
  assert (Forall has_expected_keys [user_with_two_phones]) as Hkeys.
  { constructor; [|constructor].
    repeat (constructor; [by eexists|]). constructor. }
  specialize (H Hkeys).
  remember (yields (SimplePipeline.load_users
                      (world_answering (PyList [user_with_two_phones]))
                      Sample.start)) as rows eqn:Hrows.
  vm_compute in Hrows. subst rows.
  apply Forall_inv in H. unfold flat_row in H. cbn [user_fields] in H.
  rewrite Forall_lookup in H. specialize (H 4%nat _ eq_refl). discriminate H.
Qed.

(** ** The incremental filter (C1) *)

Lemma is_new_exceeds last_value p :
  well_formed_post p →
  IncrementalLoad.is_new last_value p = Done (exceeds last_value p).
Proof.
  intros [[i Hid] _]. unfold IncrementalLoad.is_new, exceeds. rewrite Hid.
  apply at_path_py_path in Hid. cbn in Hid.
  destruct (py_getitem p (lit "id")) as [v|]; cbn in Hid |- *; [|done].
  injection Hid as ->. cbn. f_equal.
  destruct (Z.gtb_spec i last_value).
  - by rewrite bool_decide_eq_true_2.
  - rewrite bool_decide_eq_false_2; [done | lia].
Qed.

Lemma comprehension_if_filter {A} (cond : A → result bool) (f : A → bool) xs :
  Forall (λ x, cond x = Done (f x)) xs →
  comprehension_if xs cond = Done (List.filter f xs).
Proof.
  induction 1 as [|x xs Hx _ IH]; [done|].
  cbn. rewrite Hx, IH. by destruct (f x).
Qed.

(** One turn of the loop of [load_posts_incremental]. *)
Lemma yield_post_run p w s :
  well_formed_post p →
  ∃ row,
    IncrementalLoad.yield_post p w s =
      Run [row] (State (log s) (S (ticks s))) (Done tt) ∧
    reshaped p row ∧
    IncrementalLoad.loaded_at row = now_isoformat w (ticks s).
Proof.
  intros ((i & H1) & (v2 & H2) & (v3 & H3) & (v4 & H4)).
  exists (IncrementalLoad.PostRow (PyInt i) v2 v3 v4 (now_isoformat w (ticks s))).
  split; [|by repeat split].
  unfold IncrementalLoad.yield_post.
  apply at_path_py_path in H1, H2, H3, H4.
  erewrite bind_done by (by apply eval_done).
  erewrite bind_done by (by apply eval_done).
  erewrite bind_done by (by apply eval_done).
  erewrite bind_done by (by apply eval_done).
  erewrite bind_done by reflexivity.
  reflexivity.
Qed.

Lemma for_each_yield_post ps w s :
  Forall well_formed_post ps →
  ∃ rows,
    for_each ps IncrementalLoad.yield_post w s =
      Run rows (State (log s) (ticks s + length ps)%nat) (Done tt) ∧
    Forall2 reshaped ps rows ∧
    ∀ k row, rows !! k = Some row →
      IncrementalLoad.loaded_at row = now_isoformat w (ticks s + k)%nat.
Proof.
  intros Hps. revert s. induction Hps as [|p ps Hp _ IH]; intros s.
  - exists []. cbn. rewrite Nat.add_0_r, state_eta. by split_and!.
  - destruct (yield_post_run p w s Hp) as (row & Hrun & Hrow & Htime).
    destruct (IH (State (log s) (S (ticks s)))) as (rows & Hruns & Hrows & Htimes).
    exists (row :: rows). cbn [for_each]. rewrite bind_run, Hrun. cbn.
    rewrite Hruns. cbn. split_and!.
    + do 2 f_equal. lia.
    + by constructor.
    + intros [|k] row' Hk; cbn in Hk.
      * injection Hk as <-. by rewrite Nat.add_0_r.
      * rewrite (Htimes k row' Hk). cbn. f_equal. lia.
Qed.

Lemma Forall_filter {A} (P : A → Prop) (f : A → bool) xs :
  Forall P xs → Forall P (List.filter f xs).
Proof.
  induction 1 as [|x xs Hx _ IH]; cbn; [constructor|].
  destruct (f x); [by constructor | done].
Qed.

Lemma filter_none {A} (f : A → bool) xs :
  Forall (λ x, f x = false) xs → List.filter f xs = [].
Proof. induction 1 as [|x xs Hx _ IH]; cbn; [done|]. by rewrite Hx. Qed.

(** The run of [load_posts_incremental] on a response that is not rejected
    and whose JSON is a list of post objects. *)
Lemma load_posts_incremental_run last_value w s status posts :
  http w (ticks s) POSTS_URL = Response status (Some (PyList posts)) →
  ¬ error_status status →
  Forall well_formed_post posts →
  ∃ rows,
    yields (IncrementalLoad.load_posts_incremental last_value w s) = rows ∧
    outcome (IncrementalLoad.load_posts_incremental last_value w s) = Done tt ∧
    Forall2 reshaped (List.filter (exceeds last_value) posts) rows ∧
    ∀ k row, rows !! k = Some row →
      IncrementalLoad.loaded_at row = now_isoformat w (S (ticks s) + k)%nat.
Proof.
  intros Hreply Hstatus Hposts. unfold IncrementalLoad.load_posts_incremental.
  erewrite bind_done by reflexivity.
  erewrite bind_done by reflexivity.
  erewrite bind_done by (by apply requests_get_response).
  erewrite bind_done by (by apply raise_for_status_ok).
  erewrite bind_done by reflexivity.
  erewrite bind_done by reflexivity.
  erewrite bind_done.
  2:{ apply eval_done, (comprehension_if_filter _ (exceeds last_value)).
      eapply Forall_impl; [exact Hposts|]. intros p. apply is_new_exceeds. }
  erewrite bind_done by reflexivity.
  erewrite bind_done by reflexivity.
  erewrite bind_done by reflexivity.
  match goal with |- context [for_each ?ps _ w ?s'] =>
    destruct (for_each_yield_post ps w s') as (rows & -> & Hrows & Htimes)
  end; [by apply Forall_filter|].
  exists rows. cbn in *. by split_and!.
Qed.

Lemma reshaped_rows_exceed last_value ps rows :
  Forall well_formed_post ps →
  Forall2 reshaped (List.filter (exceeds last_value) ps) rows →
  Forall (λ row, ∃ i, IncrementalLoad.post_id row = PyInt i ∧ last_value < i) rows.
Proof.
  intros _ H. apply Forall_forall. intros row Hrow.
  apply list_elem_of_lookup in Hrow as [k Hk].
  destruct (Forall2_lookup_r _ _ _ _ _ H Hk) as (p & Hp & Hid & _).
  apply list_elem_of_lookup_2, list_elem_of_In, filter_In in Hp as [_ Hp].
  unfold exceeds in Hp. rewrite Hid in Hp.
  destruct (IncrementalLoad.post_id row); try discriminate.
  apply bool_decide_eq_true in Hp. eauto.
Qed.

Lemma exceeding_post_yielded last_value ps rows p i :
  Forall2 reshaped (List.filter (exceeds last_value) ps) rows →
  p ∈ ps → at_path p [lit "id"] = Some (PyInt i) → last_value < i →
  ∃ row, row ∈ rows ∧ reshaped p row.
Proof.
  intros Hrows Hp Hid Hlt.
  assert (p ∈ List.filter (exceeds last_value) ps) as Hin.
  { apply list_elem_of_In, filter_In. split; [by apply list_elem_of_In|].
    unfold exceeds. rewrite Hid. by apply bool_decide_eq_true. }
  apply list_elem_of_lookup in Hin as [k Hk].
  destruct (Forall2_lookup_l _ _ _ _ _ Hrows Hk) as (row & Hrow & Hshape).
  exists row. split; [by eapply list_elem_of_lookup_2 | done].
Qed.


Lemma sample_posts_well_formed : Forall well_formed_post Sample.posts.
Proof.
  repeat (constructor; [split_and!; by eexists|]). constructor.
Defined.


(** On the sample, with the cursor at 1, the posts 2 and 3 are yielded. *)
Example load_posts_incremental_sample :
  IncrementalLoad.post_id <$>
    yields (IncrementalLoad.load_posts_incremental 1 (Sample.world_with 200 ∅)
              Sample.start) = [PyInt 2; PyInt 3].
Proof. reflexivity. Qed.

(** ** The cursor (C2) *)

Lemma advance_mark_cons last_value row rows :
  IncrementalLoad.advance_mark last_value (row :: rows) =
    IncrementalLoad.advance_mark
      (match IncrementalLoad.post_id row with
       | PyInt i => Z.max last_value i
       | _ => last_value
       end) rows.
Proof. reflexivity. Qed.

Lemma advance_mark_ge last_value rows :
  last_value ≤ IncrementalLoad.advance_mark last_value rows.
Proof.
  revert last_value. induction rows as [|row rows IH]; intros last_value.
  - reflexivity.
  - rewrite advance_mark_cons. etrans; [|apply IH].
    destruct (IncrementalLoad.post_id row); lia.
Qed.

Lemma advance_mark_upper last_value rows row i :
  row ∈ rows → IncrementalLoad.post_id row = PyInt i →
  i ≤ IncrementalLoad.advance_mark last_value rows.
Proof.
  revert last_value. induction rows as [|row' rows IH]; intros last_value Hin Hid.
  - by apply elem_of_nil in Hin.
  - rewrite advance_mark_cons. apply elem_of_cons in Hin as [<-|Hin].
    + rewrite Hid. etrans; [|apply advance_mark_ge]. lia.
    + by apply IH.
Qed.

Lemma advance_mark_attained last_value rows :
  IncrementalLoad.advance_mark last_value rows = last_value ∨
  ∃ row, row ∈ rows ∧
    IncrementalLoad.post_id row =
      PyInt (IncrementalLoad.advance_mark last_value rows).
Proof.
  revert last_value. induction rows as [|row rows IH]; intros last_value.
  - by left.
  - rewrite advance_mark_cons.
    destruct (IncrementalLoad.post_id row) as [| | i | | | |] eqn:Hid;
      try (destruct (IH last_value) as [->|(row' & Hin & Hrow')];
           [by left | right; exists row'; split; [by right | done]]).
    destruct (IH (Z.max last_value i)) as [Hmax|(row' & Hin & Hrow')].
    + rewrite Hmax. destruct (Z.max_spec last_value i) as [[_ ->]|[_ ->]].
      * right. exists row. split; [by left | done].
      * by left.
    + right. exists row'. split; [by right | done].
Qed.

(** C2.  When a run of [load_posts_incremental] from the cursor value
    [last_value] is over and the stored high-water mark has been advanced to
    the maximum identifier seen (it bounds the [id] of every post of the
    response, and it is the [post_id] of a record of the run as soon as the
    run yields one; it stays where it was when the run yields none), a second
    run over the same posts ends normally, yields no record and leaves the
    mark where it is: running twice amounts to running once. *)
Theorem second_run_yields_nothing
    (last_value : Z) (posts : list pyval)
    (w1 : world) (s1 : state) (status1 : Z)
    (w2 : world) (s2 : state) (status2 : Z) :
  http w1 (ticks s1) POSTS_URL = Response status1 (Some (PyList posts)) →
  ¬ (400 ≤ status1 < 600) →
  http w2 (ticks s2) POSTS_URL = Response status2 (Some (PyList posts)) →
  ¬ (400 ≤ status2 < 600) →
  Forall well_formed_post posts →
  let first := IncrementalLoad.load_posts_incremental last_value w1 s1 in
  let mark := IncrementalLoad.advance_mark last_value (yields first) in
  let second := IncrementalLoad.load_posts_incremental mark w2 s2 in
  outcome first = Done tt ∧
  (∀ p i, p ∈ posts → at_path p [lit "id"] = Some (PyInt i) → i ≤ mark) ∧
  (yields first ≠ [] →
     ∃ row, row ∈ yields first ∧ IncrementalLoad.post_id row = PyInt mark) ∧
  (yields first = [] → mark = last_value) ∧
  outcome second = Done tt ∧
  yields second = [] ∧
  IncrementalLoad.advance_mark mark (yields second) = mark.
Proof.
  intros Hreply1 Hstatus1 Hreply2 Hstatus2 Hposts first mark second.
  destruct (load_posts_incremental_run last_value w1 s1 status1 posts)
    as (rows1 & Hyields1 & Hend1 & Hrows1 & _); [done..|].
  fold first in Hyields1, Hend1.
  pose proof (reshaped_rows_exceed _ _ _ Hposts Hrows1) as Hexceed1.
  rewrite <- Hyields1 in Hrows1, Hexceed1.
  assert (∀ p i, p ∈ posts → at_path p [lit "id"] = Some (PyInt i) → i ≤ mark)
    as Hbound.
  { intros p i Hp Hid. destruct (decide (last_value < i)) as [Hlt|Hle].
    - destruct (exceeding_post_yielded _ _ _ p i Hrows1 Hp Hid Hlt)
        as (row & Hrow & Hid' & _).
      apply (advance_mark_upper _ _ row); [done | congruence].
    - etrans; [|apply advance_mark_ge]. lia. }
  destruct (load_posts_incremental_run mark w2 s2 status2 posts)
    as (rows2 & Hyields2 & Hend2 & Hrows2 & _); [done..|].
  fold second in Hyields2, Hend2.
  assert (List.filter (exceeds mark) posts = []) as Hnone.
  { apply filter_none, Forall_forall. intros p Hp. unfold exceeds.
    destruct (at_path p [lit "id"]) as [[]|] eqn:Hid; try done.
    rewrite bool_decide_eq_false_2; [done|].
    specialize (Hbound _ _ Hp Hid). lia. }
  rewrite Hnone in Hrows2. apply Forall2_nil_inv_l in Hrows2.
  rewrite Hyields2, Hrows2.
  split_and!; [done | done | | | done..].
  2:{ intros Hy. unfold mark. by rewrite Hy. }
  intros Hne.
  destruct (advance_mark_attained last_value (yields first)) as [Heq|Hrow];
    [|done].
  destruct (yields first) as [|row rows] eqn:Hy; [done|].
  apply Forall_cons in Hexceed1 as [(i & Hi & Hlt) _].
  pose proof (advance_mark_upper last_value (row :: rows) row i
                ltac:(by left) Hi) as Hle.
  rewrite Heq in Hle. lia.
Qed.

Lemma second_run_yields_nothing_witness :
  let w := Sample.world_with 200 ∅ in
  let s2 := final (IncrementalLoad.load_posts_incremental 0 w Sample.start) in
  http w (ticks Sample.start) POSTS_URL = Response 200 (Some (PyList Sample.posts)) ∧
  ¬ (400 ≤ 200 < 600) ∧
  http w (ticks s2) POSTS_URL = Response 200 (Some (PyList Sample.posts)) ∧
  Forall well_formed_post Sample.posts ∧
  let first := IncrementalLoad.load_posts_incremental 0 w Sample.start in
  let mark := IncrementalLoad.advance_mark 0 (yields first) in
  let second := IncrementalLoad.load_posts_incremental mark w s2 in
  outcome first = Done tt ∧
  (∀ p i, p ∈ Sample.posts → at_path p [lit "id"] = Some (PyInt i) → i ≤ mark) ∧
  (yields first ≠ [] →
     ∃ row, row ∈ yields first ∧ IncrementalLoad.post_id row = PyInt mark) ∧
  (yields first = [] → mark = 0) ∧
  outcome second = Done tt ∧
  yields second = [] ∧
  IncrementalLoad.advance_mark mark (yields second) = mark.
Proof.
  intros w s2.
  split_and!; [reflexivity | lia | reflexivity | exact sample_posts_well_formed |].
  apply (second_run_yields_nothing 0 Sample.posts w Sample.start 200 w s2 200);
    [reflexivity | lia | reflexivity | lia | exact sample_posts_well_formed].
Defined.

(** On the sample, the first run from 0 yields the three posts and moves the
    mark to 3. *)
Example first_run_sample :
  let first := IncrementalLoad.load_posts_incremental 0 (Sample.world_with 200 ∅)
                 Sample.start in
  length (yields first) = 3%nat ∧
  IncrementalLoad.advance_mark 0 (yields first) = 3.
Proof. split; reflexivity. Qed.

(** ** The lengths in the warehouse records (C10) *)

(** One turn of the loop of [load_posts]: it raises before it yields, or it
    yields one record, measured on the post. *)
Lemma bq_yield_post_cases post w s :
  (yields (BigQueryPipeline.yield_post post w s) = [] ∧
   ∃ e, outcome (BigQueryPipeline.yield_post post w s) = Raised e) ∨
  (∃ row,
     BigQueryPipeline.yield_post post w s =
       Run [row] (State (log s) (S (ticks s))) (Done tt) ∧
     measured post row).
Proof.
  unfold BigQueryPipeline.yield_post.
  destruct (py_path post [lit "id"]) as [v1|e] eqn:H1;
    [erewrite bind_done by (by apply eval_done)
    |left; erewrite bind_raised by (by apply eval_raised); eauto].
  destruct (py_path post [lit "userId"]) as [v2|e] eqn:H2;
    [erewrite bind_done by (by apply eval_done)
    |left; erewrite bind_raised by (by apply eval_raised); eauto].
  destruct (py_path post [lit "title"]) as [v3|e] eqn:H3;
    [erewrite bind_done by (by apply eval_done)
    |left; erewrite bind_raised by (by apply eval_raised); eauto].
  destruct (py_path post [lit "body"]) as [v4|e] eqn:H4;
    [erewrite bind_done by (by apply eval_done)
    |left; erewrite bind_raised by (by apply eval_raised); eauto].
  cbn [mbind result_bind].
  destruct (py_len v3) as [n3|e] eqn:H5;
    [erewrite bind_done by (by apply eval_done)
    |left; erewrite bind_raised by (by apply eval_raised); eauto].
  destruct (py_len v4) as [n4|e] eqn:H6;
    [erewrite bind_done by (by apply eval_done)
    |left; erewrite bind_raised by (by apply eval_raised); eauto].
  erewrite bind_done by reflexivity.
  right. eexists. split; [reflexivity|].
  apply at_path_py_path in H1, H3, H4. by repeat split.
Qed.

Lemma bq_for_each_yield_post items w s k row :
  yields (for_each items BigQueryPipeline.yield_post w s) !! k = Some row →
  ∃ post, items !! k = Some post ∧ measured post row.
Proof.
  revert s k. induction items as [|post items IH]; intros s k; [done|].
  cbn [for_each]. rewrite bind_run.
  destruct (bq_yield_post_cases post w s) as [[Hnone [e He]]|(row' & Hrun & Hrow')].
  - rewrite He. cbn. by rewrite Hnone.
  - rewrite Hrun. cbn. destruct k as [|k]; cbn.
    + intros [= <-]. eauto.
    + apply IH.
Qed.

(** The records of [load_posts] are those of its loop over the items of the
    JSON of the response. *)
Lemma bq_load_posts_yields w s :
  yields (BigQueryPipeline.load_posts w s) = [] ∨
  ∃ status posts items s',
    http w (ticks s) POSTS_URL = Response status (Some posts) ∧
    ¬ error_status status ∧
    py_iter posts = Done items ∧
    yields (BigQueryPipeline.load_posts w s) =
      yields (for_each items BigQueryPipeline.yield_post w s').
Proof.
  unfold BigQueryPipeline.load_posts.
  erewrite bind_done by reflexivity.
  destruct (http w (ticks s) POSTS_URL) as [e|status body] eqn:Hreply.
  { left. by erewrite bind_raised by (by apply requests_get_no_response). }
  erewrite bind_done by (by apply requests_get_response).
  destruct (decide (error_status status)) as [Herr|Hok].
  { left. by erewrite bind_raised by (by apply raise_for_status_error). }
  erewrite bind_done by (by apply raise_for_status_ok).
  destruct body as [posts|]; [|left; by erewrite bind_raised by reflexivity].
  erewrite bind_done by reflexivity.
  destruct (py_len posts) as [n|e] eqn:Hlen;
    [|left; by erewrite bind_raised by (by apply eval_raised)].
  erewrite bind_done by (by apply eval_done).
  erewrite bind_done by reflexivity.
  destruct (py_iter posts) as [items|e] eqn:Hiter;
    [|left; by erewrite bind_raised by (by apply eval_raised)].
  erewrite bind_done by (by apply eval_done).
  right. by eexists status, posts, items, _.
Qed.

(** C10.  Every record [load_posts] of the BigQuery pipeline yields has
    [title_length] equal to the length of its [title] and [body_length] equal
    to the length of its [body]; and the record yielded at position [k] comes
    from the item at position [k] of the JSON of the response, whose [id],
    [title] and [body] are its [post_id], [title] and [body]. *)
Theorem load_posts_lengths (w : world) (s : state) :
  ∀ k row, yields (BigQueryPipeline.load_posts w s) !! k = Some row →
    py_len (BigQueryPipeline.title row) = Done (BigQueryPipeline.title_length row) ∧
    py_len (BigQueryPipeline.body row) = Done (BigQueryPipeline.body_length row) ∧
    ∃ status posts items post,
      http w (ticks s) POSTS_URL = Response status (Some posts) ∧
      py_iter posts = Done items ∧
      items !! k = Some post ∧
      at_path post [lit "id"] = Some (BigQueryPipeline.post_id row) ∧
      at_path post [lit "title"] = Some (BigQueryPipeline.title row) ∧
      at_path post [lit "body"] = Some (BigQueryPipeline.body row).
Proof.
  intros k row Hk.
  destruct (bq_load_posts_yields w s)
    as [Hnone|(status & posts & items & s' & Hreply & _ & Hiter & Hyields)].
  - by rewrite Hnone in Hk.
  - rewrite Hyields in Hk.
    apply bq_for_each_yield_post in Hk as (post & Hpost & Hid & Ht & Hb & Hlt & Hlb).
    split_and!; [done | done |]. by exists status, posts, items, post.
Qed.

(** On the sample all three posts are yielded, with their lengths. *)
Example load_posts_sample :
  (λ row, (BigQueryPipeline.post_id row, BigQueryPipeline.title_length row,
           BigQueryPipeline.body_length row)) <$>
    yields (BigQueryPipeline.load_posts (Sample.world_with 200 ∅) Sample.start) =
  [(PyInt 1, 15, 16); (PyInt 2, 12, 23); (PyInt 3, 12, 21)].
Proof. reflexivity. Qed.

Lemma load_posts_lengths_witness :
  let w := Sample.world_with 200 ∅ in
  let row :=
    BigQueryPipeline.PostRow (PyInt 1) (PyInt 1) (PyStr (lit "sunt aut facere"))
      (PyStr (lit "quia et suscipit")) 15 16 (now_isoformat w 1) in
  yields (BigQueryPipeline.load_posts w Sample.start) !! 0%nat = Some row ∧
  py_len (BigQueryPipeline.title row) = Done (BigQueryPipeline.title_length row) ∧
  py_len (BigQueryPipeline.body row) = Done (BigQueryPipeline.body_length row) ∧
  ∃ status posts items post,
    http w (ticks Sample.start) POSTS_URL = Response status (Some posts) ∧
    py_iter posts = Done items ∧
    items !! 0%nat = Some post ∧
    at_path post [lit "id"] = Some (BigQueryPipeline.post_id row) ∧
    at_path post [lit "title"] = Some (BigQueryPipeline.title row) ∧
    at_path post [lit "body"] = Some (BigQueryPipeline.body row).
Proof.
  intros w row. split; [reflexivity|].
  apply (load_posts_lengths w Sample.start 0%nat row). reflexivity.
Defined.

(** ** The setup check (C9) *)

Lemma check_bigquery_setup_run w s :
  let found := path_exists w (ticks s) (BigQueryPipeline.BIGQUERY_CREDENTIALS w) in
  let configured :=
    bool_decide (BigQueryPipeline.BIGQUERY_PROJECT_ID w ≠ "your-project-id") in
  BigQueryPipeline.check_bigquery_setup w s =
    Run [] (State (log s ++ setup_report w found) (S (ticks s)))
        (Done (found && configured)).
Proof.
  intros found configured. subst found configured.
  unfold BigQueryPipeline.check_bigquery_setup, setup_report.
  repeat (erewrite bind_done by reflexivity). cbn [ticks log].
  generalize (path_exists w (ticks s) (BigQueryPipeline.BIGQUERY_CREDENTIALS w)).
  generalize (bool_decide (BigQueryPipeline.BIGQUERY_PROJECT_ID w ≠ "your-project-id")).
  intros [] []; cbn [negb andb];
    repeat (erewrite bind_done by reflexivity);
    cbn; by rewrite <- !app_assoc.
Qed.

Lemma main_setup_incomplete py_float w s :
  let found := path_exists w (ticks s) (BigQueryPipeline.BIGQUERY_CREDENTIALS w) in
  found && bool_decide (BigQueryPipeline.BIGQUERY_PROJECT_ID w ≠ "your-project-id")
    = false →
  BigQueryPipeline.main py_float w s =
    Run [] (State (log s ++ [Print MsgBanner] ++ setup_report w found
                     ++ [Print MsgCompleteSetupFirst])
                  (S (ticks s)))
        (Done tt).
Proof.
  intros found Hfailed. unfold BigQueryPipeline.main.
  erewrite bind_done by reflexivity.
  erewrite bind_done by apply check_bigquery_setup_run.
  cbn [ticks log]. fold found. rewrite Hfailed. cbn [negb].
  unfold print, emit. cbn [ticks log]. by rewrite <- !app_assoc.
Qed.

Lemma main_setup_complete py_float w s :
  path_exists w (ticks s) (BigQueryPipeline.BIGQUERY_CREDENTIALS w) = true →
  BigQueryPipeline.BIGQUERY_PROJECT_ID w ≠ "your-project-id" →
  BigQueryPipeline.main py_float w s =
    BigQueryPipeline.try_except_Exception
      (pipeline ← BigQueryPipeline.run_bigquery_pipeline py_float; print MsgSuccess)
      (λ e, print (MsgError e) ;; print MsgTroubleshooting)
      w (pipeline_entry w s).
Proof.
  intros Hfound Hproject. unfold BigQueryPipeline.main.
  erewrite bind_done by reflexivity.
  erewrite bind_done by apply check_bigquery_setup_run.
  cbn [ticks log]. rewrite Hfound, bool_decide_eq_true_2 by done. cbn [andb negb].
  unfold BigQueryPipeline.demonstrate_bigquery_features,
    BigQueryPipeline.show_cost_estimation.
  erewrite bind_done by reflexivity.
  erewrite bind_done by reflexivity.
  f_equal. unfold pipeline_entry, print, emit. cbn [ticks log].
  by rewrite <- !app_assoc.
Qed.

(** C9.  If the credentials file does not exist, or the project ID is the
    placeholder ['your-project-id'], then [check_bigquery_setup] returns
    [False], and [main] returns early: it ends normally after the message that
    asks to complete the setup, and nothing of [run_bigquery_pipeline] has
    happened (no pipeline created, no pipeline run, no request). *)
Theorem pipeline_needs_setup
    (py_float : pyval → result spec_float) (w : world) (s : state) :
  path_exists w (ticks s) (BigQueryPipeline.BIGQUERY_CREDENTIALS w) = false ∨
  BigQueryPipeline.BIGQUERY_PROJECT_ID w = "your-project-id" →
  outcome (BigQueryPipeline.check_bigquery_setup w s) = Done false ∧
  outcome (BigQueryPipeline.main py_float w s) = Done tt ∧
  ∃ new,
    log (final (BigQueryPipeline.main py_float w s)) = log s ++ new ∧
    Forall (λ ev, ¬ pipeline_activity ev) new ∧
    last new = Some (Print MsgCompleteSetupFirst).
Proof.
  intros Hsetup.
  set (found := path_exists w (ticks s) (BigQueryPipeline.BIGQUERY_CREDENTIALS w)).
  assert (found &&
          bool_decide (BigQueryPipeline.BIGQUERY_PROJECT_ID w ≠ "your-project-id")
            = false) as Hfailed.
  { destruct Hsetup as [Hmissing|Hplaceholder].
    - subst found. by rewrite Hmissing.
    - rewrite bool_decide_eq_false_2; [by destruct found | by intros []]. }
  rewrite check_bigquery_setup_run, (main_setup_incomplete py_float w s) by done.
  cbn [outcome final log]. fold found. split_and!; [by rewrite Hfailed | done |].
  eexists. split_and!; [reflexivity | |].
  - unfold setup_report. rewrite Hfailed.
    repeat (constructor; [by intros []|]). constructor.
  - unfold setup_report. by rewrite Hfailed.
Qed.

Lemma pipeline_needs_setup_witness :
  let w := Sample.world_with 200 ∅ in
  let py_float := λ _ : pyval, Raised ValueError in
  (path_exists w (ticks Sample.start) (BigQueryPipeline.BIGQUERY_CREDENTIALS w) = false ∨
   BigQueryPipeline.BIGQUERY_PROJECT_ID w = "your-project-id") ∧
  outcome (BigQueryPipeline.check_bigquery_setup w Sample.start) = Done false ∧
  outcome (BigQueryPipeline.main py_float w Sample.start) = Done tt ∧
  ∃ new,
    log (final (BigQueryPipeline.main py_float w Sample.start)) =
      log Sample.start ++ new ∧
    Forall (λ ev, ¬ pipeline_activity ev) new ∧
    last new = Some (Print MsgCompleteSetupFirst).
Proof.
  intros w py_float. split; [right; reflexivity|].
  apply (pipeline_needs_setup py_float w Sample.start). right. reflexivity.
Defined.

(** ** The catch-all of [main] (C4) *)

(** What is an instance of [Exception] is caught by [main]. *)
Lemma main_catches py_float w s e :
  path_exists w (ticks s) (BigQueryPipeline.BIGQUERY_CREDENTIALS w) = true →
  BigQueryPipeline.BIGQUERY_PROJECT_ID w ≠ "your-project-id" →
  outcome (BigQueryPipeline.run_bigquery_pipeline py_float w (pipeline_entry w s))
    = Raised e →
  is_Exception e = true →
  outcome (BigQueryPipeline.main py_float w s) = Done tt ∧
  log (final (BigQueryPipeline.main py_float w s)) =
    log (final (BigQueryPipeline.run_bigquery_pipeline py_float w (pipeline_entry w s)))
      ++ [Print (MsgError e); Print MsgTroubleshooting].
Proof.
  intros Hfound Hproject Hraised Hexception.
  rewrite main_setup_complete by done.
  unfold BigQueryPipeline.try_except_Exception.
  rewrite bind_run, Hraised.
  cbn [outcome final yields]. rewrite Hexception.
  unfold print, emit. rewrite bind_run. cbn [outcome final yields log ticks].
  split; [done|]. by rewrite <- app_assoc.
Qed.

(** What is not an instance of [Exception] goes through [main]. *)
Lemma main_propagates py_float w s e :
  path_exists w (ticks s) (BigQueryPipeline.BIGQUERY_CREDENTIALS w) = true →
  BigQueryPipeline.BIGQUERY_PROJECT_ID w ≠ "your-project-id" →
  outcome (BigQueryPipeline.run_bigquery_pipeline py_float w (pipeline_entry w s))
    = Raised e →
  is_Exception e = false →
  outcome (BigQueryPipeline.main py_float w s) = Raised e.
Proof.
  intros Hfound Hproject Hraised Hbase.
  rewrite main_setup_complete by done.
  unfold BigQueryPipeline.try_except_Exception.
  rewrite bind_run, Hraised.
  cbn [outcome final yields]. by rewrite Hbase.
Qed.

(** C4, amended.  The run of the warehouse pipeline is wrapped in
    [try ... except Exception]: when the setup check has passed and
    [run_bigquery_pipeline] is called, for every exception raised inside it
    that is an instance of [Exception], [main] catches it, prints the error
    and the troubleshooting message after what [run_bigquery_pipeline] had
    logged, and returns normally; an exception that derives from
    [BaseException] only ([KeyboardInterrupt], [SystemExit]) is not caught and
    propagates out of [main]. *)
Theorem main_catches_Exception
    (py_float : pyval → result spec_float) (w : world) (s : state) (e : exn) :
  path_exists w (ticks s) (BigQueryPipeline.BIGQUERY_CREDENTIALS w) = true →
  BigQueryPipeline.BIGQUERY_PROJECT_ID w ≠ "your-project-id" →
  outcome (BigQueryPipeline.run_bigquery_pipeline py_float w (pipeline_entry w s))
    = Raised e →
  (is_Exception e = true →
     outcome (BigQueryPipeline.main py_float w s) = Done tt ∧
     log (final (BigQueryPipeline.main py_float w s)) =
       log (final (BigQueryPipeline.run_bigquery_pipeline py_float w
                     (pipeline_entry w s)))
         ++ [Print (MsgError e); Print MsgTroubleshooting]) ∧
  (is_Exception e = false →
     outcome (BigQueryPipeline.main py_float w s) = Raised e).
Proof.
  intros Hfound Hproject Hraised. split; intros Hclass.
  - by apply main_catches.
  - by apply main_propagates.
Qed.

(** A [KeyboardInterrupt] raised inside [run_bigquery_pipeline] (the user
    interrupts the script while the pipeline is created) is not caught by
    [main]. *)
Lemma KeyboardInterrupt_not_caught :
  ¬ ∀ (py_float : pyval → result spec_float) (w : world) (s : state) (e : exn),
      path_exists w (ticks s) (BigQueryPipeline.BIGQUERY_CREDENTIALS w) = true →
      BigQueryPipeline.BIGQUERY_PROJECT_ID w ≠ "your-project-id" →
      outcome (BigQueryPipeline.run_bigquery_pipeline py_float w (pipeline_entry w s))
        = Raised e →
      outcome (BigQueryPipeline.main py_float w s) = Done tt.
Proof.
  intros H.
  specialize (H (λ _, Raised ValueError) Sample.world_interrupted Sample.start
                KeyboardInterrupt).
  assert (outcome (BigQueryPipeline.main (λ _, Raised ValueError)
                     Sample.world_interrupted Sample.start)
          = Raised KeyboardInterrupt) as Hmain by reflexivity.
  rewrite Hmain in H. discriminate H; [reflexivity | done | reflexivity].
Qed.

Lemma main_catches_Exception_witness :
  let w := Sample.world_with 500 Sample.configured in
  let py_float := λ _ : pyval, Raised ValueError in
  let attempt :=
    BigQueryPipeline.run_bigquery_pipeline py_float w (pipeline_entry w Sample.start) in
  path_exists w (ticks Sample.start) (BigQueryPipeline.BIGQUERY_CREDENTIALS w) = true ∧
  BigQueryPipeline.BIGQUERY_PROJECT_ID w ≠ "your-project-id" ∧
  outcome attempt = Raised (HTTPError 500) ∧
  (is_Exception (HTTPError 500) = true →
     outcome (BigQueryPipeline.main py_float w Sample.start) = Done tt ∧
     log (final (BigQueryPipeline.main py_float w Sample.start)) =
       log (final attempt)
         ++ [Print (MsgError (HTTPError 500)); Print MsgTroubleshooting]) ∧
  (is_Exception (HTTPError 500) = false →
     outcome (BigQueryPipeline.main py_float w Sample.start) =
       Raised (HTTPError 500)).
Proof.
  intros w py_float attempt.
  split_and!; [reflexivity | discriminate | reflexivity | ..];
    apply (main_catches_Exception py_float w Sample.start (HTTPError 500));
    (reflexivity || discriminate).
Defined.

(** ** The configuration of the warehouse pipeline (C7) *)

Section EmitsPipeline.
Context (w : world) (P : event → Prop).

Lemma emits_drain {Y Y' : Type} (g : Gen Y unit) :
  emits w P (λ _, True) g →
  emits w P (λ _, True) (BigQueryPipeline.drain g : Gen Y' (list Y)).
Proof.
  intros Hg s. destruct (Hg s) as (new & Hlog & Hnew & _).
  exists new. unfold BigQueryPipeline.drain.
  destruct (outcome (g w s)); cbn; by split_and!.
Qed.

Lemma emits_dlt_load_call c :
  emits w P (λ _, True) (BigQueryPipeline.dlt_load_call c).
Proof.
  intros s. exists []. cbn. rewrite app_nil_r. by split_and!.
Qed.

Lemma emits_pipeline_run py_float c :
  (∀ m, narration m → P (Print m)) → (∀ url, P (HttpGet url)) →
  P (RunPipeline c) →
  emits w P (λ _, True)
    (BigQueryPipeline.pipeline_run c (BigQueryPipeline.jsonplaceholder_source py_float)).
Proof.
  intros Hprint Hget Hrun.
  unfold BigQueryPipeline.pipeline_run, BigQueryPipeline.jsonplaceholder_source.
  cbn [fst snd].
  eapply (emits_bind _ _ (λ _, True)); [by apply emits_emit | intros _ _].
  eapply (emits_bind _ _ (λ _, True)); [|intros ? _].
  { apply emits_drain, (extract_emits (BigQuery_load_users py_float)); auto. }
  eapply (emits_bind _ _ (λ _, True)); [|intros ? _].
  { apply emits_drain, (extract_emits BigQuery_load_posts); auto. }
  apply emits_dlt_load_call.
Qed.

End EmitsPipeline.

Lemma dlt_pipeline_call_run c w s :
  let s' := State (log s ++ [CreatePipeline c]) (S (ticks s)) in
  (∃ e, BigQueryPipeline.dlt_pipeline_call c w s = Run [] s' (Raised e)) ∨
  BigQueryPipeline.dlt_pipeline_call c w s = Run [] s' (Done c).
Proof.
  unfold BigQueryPipeline.dlt_pipeline_call.
  destruct (dlt_pipeline w (ticks s) c); cbn; eauto.
Qed.

Lemma bind_assoc {Y A B C} (m : Gen Y A) (k1 : A → Gen Y B) (k2 : B → Gen Y C) w s :
  ((m ≫= k1) ≫= k2) w s = (m ≫= (λ a, k1 a ≫= k2)) w s.
Proof.
  rewrite (bind_run (m ≫= k1) k2), (bind_run m k1), (bind_run m (λ a, k1 a ≫= k2)).
  destruct (outcome (m w s)) as [a|e]; cbn [outcome final yields]; [|done].
  rewrite bind_run.
  destruct (outcome (k1 a w (final (m w s)))); cbn [outcome final yields];
    by rewrite ?app_assoc.
Qed.

(** The log of [run_bigquery_pipeline]: the banner, the creation of the
    pipeline with the arguments read from the environment, and then events
    that all agree with that configuration; when the creation succeeds, they
    start with the report of the configuration and the call of [pipeline.run]
    on the pipeline created. *)
Lemma run_bigquery_pipeline_log py_float w s :
  ∃ rest,
    log (final (BigQueryPipeline.run_bigquery_pipeline py_float w s)) =
      log s ++ [Print MsgRunning;
                CreatePipeline (BigQueryPipeline.pipeline_arguments w)] ++ rest ∧
    Forall (configured_from w) rest ∧
    (dlt_pipeline w (ticks s) (BigQueryPipeline.pipeline_arguments w) = None →
     ∃ rest',
       rest =
         [ Print (MsgConfiguration "jsonplaceholder_to_bigquery"
                    (BigQueryPipeline.BIGQUERY_PROJECT_ID w)
                    (BigQueryPipeline.BIGQUERY_DATASET w));
           Print MsgStarting;
           RunPipeline (BigQueryPipeline.pipeline_arguments w) ] ++ rest').
Proof.
  assert (∀ m, narration m → configured_from w (Print m)) as Hnarration
    by (by intros []).
  unfold BigQueryPipeline.run_bigquery_pipeline.
  repeat (erewrite bind_done by reflexivity).
  destruct (dlt_pipeline w (ticks s) (BigQueryPipeline.pipeline_arguments w))
    as [e|] eqn:Hcreate.
  { erewrite bind_raised.
    2:{ unfold BigQueryPipeline.dlt_pipeline_call. cbn [ticks log].
        rewrite Hcreate. reflexivity. }
    exists []. cbn. split_and!; [by rewrite <- app_assoc | constructor | done]. }
  erewrite bind_done.
  2:{ unfold BigQueryPipeline.dlt_pipeline_call. cbn [ticks log].
      rewrite Hcreate. reflexivity. }
  repeat (erewrite bind_done by reflexivity).
  unfold BigQueryPipeline.pipeline_run, BigQueryPipeline.jsonplaceholder_source.
  cbn [fst snd]. rewrite bind_assoc. erewrite bind_done by reflexivity.
  match goal with |- context [final (?g w ?s')] =>
    assert (emits w (configured_from w) (λ _ : pipeline_config, True) g) as Hg;
    [|destruct (Hg s') as (rest & -> & Hrest & _)]
  end.
  { assert (∀ m, configured_from w (Print m) →
              emits w (configured_from w) (λ _, True) (print m : Gen Empty_set unit))
      as Hprint by (intros; by apply emits_print).
    eapply (emits_bind _ _ _ (λ _, True)); [|intros load_packages _].
    { eapply (emits_bind _ _ (λ _, True)); [|intros ? _].
      { apply emits_drain, (extract_emits (BigQuery_load_users py_float)); auto.
        done. }
      eapply (emits_bind _ _ (λ _, True)); [|intros ? _].
      { apply emits_drain, (extract_emits BigQuery_load_posts); auto. done. }
      apply emits_dlt_load_call. }
    eapply (emits_bind _ _ _ (λ _, True)); [by apply Hprint | intros _ _].
    eapply (emits_bind _ _ _ (λ _, True)); [|intros _ _].
    { apply emits_for_each. intros package. apply emits_for_each. intros table.
      by apply Hprint. }
    eapply (emits_bind _ _ _ (λ _, True)); [by apply Hprint | intros _ _].
    by apply emits_ret. }
  eexists (_ :: _ :: _ :: rest). cbn [log]. split_and!.
  - rewrite <- !app_assoc. reflexivity.
  - repeat (constructor; [done|]). done.
  - intros _. by exists rest.
Qed.

(** C7, amended.  The warehouse pipeline is configured from the environment:
    the three constants are the values of [BIGQUERY_CREDENTIALS_PATH],
    [BIGQUERY_PROJECT_ID] and [BIGQUERY_DATASET], or the fixed defaults when
    a variable is unset.  The destination connection is made of the
    credentials path and the dataset (with the fixed location ["US"]):
    [run_bigquery_pipeline] creates the pipeline with them, calls
    [pipeline.run] on that pipeline when the creation succeeds, and creates or
    runs no other; the connection is the same exactly when the credentials
    and the dataset are, so it is settled by [BIGQUERY_CREDENTIALS_PATH] and
    [BIGQUERY_DATASET] alone.  [BIGQUERY_PROJECT_ID] is no argument of the
    pipeline: it is what the messages name as the project (and what the setup
    check compares with the placeholder). *)
Theorem pipeline_configured_from_environment (w : world) :
  BigQueryPipeline.BIGQUERY_CREDENTIALS w =
    default "./phase3_warehouses/credentials/bigquery-key.json"
            (environ w !! "BIGQUERY_CREDENTIALS_PATH") ∧
  BigQueryPipeline.BIGQUERY_PROJECT_ID w =
    default "your-project-id" (environ w !! "BIGQUERY_PROJECT_ID") ∧
  BigQueryPipeline.BIGQUERY_DATASET w =
    default "api_ingestion" (environ w !! "BIGQUERY_DATASET") ∧
  BigQueryPipeline.pipeline_arguments w =
    PipelineConfig "jsonplaceholder_to_bigquery"
      (BigQueryPipeline.BIGQUERY_CREDENTIALS w) "US"
      (BigQueryPipeline.BIGQUERY_DATASET w) ∧
  (∀ py_float s, ∃ rest,
     log (final (BigQueryPipeline.run_bigquery_pipeline py_float w s)) =
       log s ++
       [ Print MsgRunning;
         CreatePipeline (BigQueryPipeline.pipeline_arguments w) ] ++ rest ∧
     Forall (configured_from w) rest ∧
     (dlt_pipeline w (ticks s) (BigQueryPipeline.pipeline_arguments w) = None →
      RunPipeline (BigQueryPipeline.pipeline_arguments w) ∈ rest)) ∧
  (∀ w',
     BigQueryPipeline.pipeline_arguments w' = BigQueryPipeline.pipeline_arguments w ↔
     BigQueryPipeline.BIGQUERY_CREDENTIALS w' = BigQueryPipeline.BIGQUERY_CREDENTIALS w ∧
     BigQueryPipeline.BIGQUERY_DATASET w' = BigQueryPipeline.BIGQUERY_DATASET w) ∧
  (∀ w',
     environ w' !! "BIGQUERY_CREDENTIALS_PATH" = environ w !! "BIGQUERY_CREDENTIALS_PATH" →
     environ w' !! "BIGQUERY_DATASET" = environ w !! "BIGQUERY_DATASET" →
     BigQueryPipeline.pipeline_arguments w' = BigQueryPipeline.pipeline_arguments w).
Proof.
  split_and!.
  - unfold BigQueryPipeline.BIGQUERY_CREDENTIALS, BigQueryPipeline.getenv.
    by destruct (environ w !! _).
  - unfold BigQueryPipeline.BIGQUERY_PROJECT_ID, BigQueryPipeline.getenv.
    by destruct (environ w !! _).
  - unfold BigQueryPipeline.BIGQUERY_DATASET, BigQueryPipeline.getenv.
    by destruct (environ w !! _).
  - reflexivity.
  - intros py_float s.
    destruct (run_bigquery_pipeline_log py_float w s)
      as (rest & Hlog & Hrest & Hrun).
    exists rest. split_and!; [done | done |].
    intros Hcreated. destruct (Hrun Hcreated) as [rest' ->].
    apply list_elem_of_In. cbn. auto.
  - intros w'. unfold BigQueryPipeline.pipeline_arguments. split.
    + by intros [= -> ->].
    + by intros [-> ->].
  - intros w' Hc Hd. unfold BigQueryPipeline.pipeline_arguments.
    unfold BigQueryPipeline.BIGQUERY_CREDENTIALS, BigQueryPipeline.BIGQUERY_DATASET,
      BigQueryPipeline.getenv.
    by rewrite Hc, Hd.
Qed.

(** C7, as worded, fails.  Were the project ID part of the destination
    connection, two environments with different project IDs would give
    different pipelines; the sample environment and one that differs from it
    in [BIGQUERY_PROJECT_ID] only give the same one. *)
Lemma project_id_not_in_connection :
  ¬ ∀ w1 w2 : world,
      BigQueryPipeline.BIGQUERY_PROJECT_ID w1 ≠ BigQueryPipeline.BIGQUERY_PROJECT_ID w2 →
      BigQueryPipeline.pipeline_arguments w1 ≠ BigQueryPipeline.pipeline_arguments w2.
Proof.
  intros H.
  apply (H (Sample.world_with 200 Sample.configured)
           (Sample.world_with 200 {[ "BIGQUERY_PROJECT_ID" := "another-project" ]})).
  - discriminate.
  - reflexivity.
Qed.

(** On the sample environment, which sets the project only. *)
Example pipeline_arguments_sample :
  BigQueryPipeline.pipeline_arguments (Sample.world_with 200 Sample.configured) =
    PipelineConfig "jsonplaceholder_to_bigquery"
      "./phase3_warehouses/credentials/bigquery-key.json" "US" "api_ingestion" ∧
  BigQueryPipeline.BIGQUERY_PROJECT_ID (Sample.world_with 200 Sample.configured) =
    "tutorial-project".
Proof. split; reflexivity. Qed.

(** * Further properties *)

(** ** Responses without records *)

(** The steps of an extractor that do not depend on the items. *)
Ltac run_extractor :=
  repeat first
    [ erewrite bind_done by reflexivity
    | erewrite bind_done by (by apply requests_get_response)
    | erewrite bind_done by (by apply raise_for_status_ok)
    | erewrite bind_raised by (by apply requests_get_no_response)
    | erewrite bind_raised by reflexivity
    | progress cbn [for_each] ].

(** X1.  When the endpoint answers (with a status that is not an error
    status) the empty JSON list, every extractor ends normally and yields no
    record. *)
Theorem empty_list_yields_nothing
    (x : extractor) (w : world) (s : state) (status : Z) :
  http w (ticks s) (endpoint x) = Response status (Some (PyList [])) →
  ¬ (400 ≤ status < 600) →
  yields (extract x w s) = [] ∧ outcome (extract x w s) = Done tt.
Proof.
  intros Hreply Hstatus.
  destruct x; cbn [extract endpoint record_of] in *; unfold_extractors;
    run_extractor; by split.
Qed.

Lemma empty_list_yields_nothing_witness :
  let w := World ∅ (λ _ _, Response 200 (Some (PyList []))) (λ _, [])
             (λ _ _, true) (λ _ _, None) (λ _ _, Done []) in
  http w (ticks Sample.start) (endpoint (Incremental_load_posts 7)) =
    Response 200 (Some (PyList [])) ∧
  ¬ (400 ≤ 200 < 600) ∧
  yields (extract (Incremental_load_posts 7) w Sample.start) = [] ∧
  outcome (extract (Incremental_load_posts 7) w Sample.start) = Done tt.
Proof.
  intros w. split_and!; [reflexivity | lia | ..];
    apply (empty_list_yields_nothing (Incremental_load_posts 7) w Sample.start 200);
    (reflexivity || lia).
Defined.

(** X2.  When [requests.get] itself raises (no connection, a timeout), every
    extractor lets that exception through and yields no record. *)
Theorem no_response_propagates
    (x : extractor) (w : world) (s : state) (e : exn) :
  http w (ticks s) (endpoint x) = NoResponse e →
  yields (extract x w s) = [] ∧ outcome (extract x w s) = Raised e.
Proof.
  intros Hreply.
  destruct x; cbn [extract endpoint record_of] in *; unfold_extractors;
    run_extractor; by split.
Qed.

Lemma no_response_propagates_witness :
  let w := World ∅ (λ _ _, NoResponse ConnectionError) (λ _, [])
             (λ _ _, true) (λ _ _, None) (λ _ _, Done []) in
  http w (ticks Sample.start) (endpoint Simple_load_users) =
    NoResponse ConnectionError ∧
  yields (extract Simple_load_users w Sample.start) = [] ∧
  outcome (extract Simple_load_users w Sample.start) = Raised ConnectionError.
Proof.
  intros w. split; [reflexivity|].
  apply (no_response_propagates Simple_load_users w Sample.start ConnectionError).
  reflexivity.
Defined.

(** X3.  When the body of a response that is not rejected is not valid JSON,
    every extractor raises the decoding error of [response.json()] and yields
    no record. *)
Theorem undecodable_body_raises
    (x : extractor) (w : world) (s : state) (status : Z) :
  http w (ticks s) (endpoint x) = Response status None →
  ¬ (400 ≤ status < 600) →
  yields (extract x w s) = [] ∧ outcome (extract x w s) = Raised JSONDecodeError.
Proof.
  intros Hreply Hstatus.
  destruct x; cbn [extract endpoint record_of] in *; unfold_extractors;
    run_extractor; by split.
Qed.

Lemma undecodable_body_raises_witness :
  let w := World ∅ (λ _ _, Response 304 None) (λ _, [])
             (λ _ _, true) (λ _ _, None) (λ _ _, Done []) in
  http w (ticks Sample.start) (endpoint BigQuery_load_posts) = Response 304 None ∧
  ¬ (400 ≤ 304 < 600) ∧
  yields (extract BigQuery_load_posts w Sample.start) = [] ∧
  outcome (extract BigQuery_load_posts w Sample.start) = Raised JSONDecodeError.
Proof.
  intros w. split_and!; [reflexivity | lia | ..];
    apply (undecodable_body_raises BigQuery_load_posts w Sample.start 304);
    (reflexivity || lia).
Defined.

(** X4.  When the JSON of the response is not a list, no extractor yields a
    record: a number, a boolean or [null] cannot be measured or iterated, and
    the items of a dict (its keys) or of a str (its characters) are strs,
    which cannot be subscripted with a key, so the extractor raises
    [TypeError]; only an empty dict or an empty str goes unnoticed, and the
    run ends normally with nothing. *)
Theorem non_list_json_yields_nothing
    (x : extractor) (w : world) (s : state) (status : Z) (v : pyval) :
  http w (ticks s) (endpoint x) = Response status (Some v) →
  ¬ (400 ≤ status < 600) →
  (∀ l, v ≠ PyList l) →
  yields (extract x w s) = [] ∧
  outcome (extract x w s) =
    if empty_container v then Done tt else Raised TypeError.
Proof.
  intros Hreply Hstatus Hlist.
  destruct v as [| b | z | f | [|c cs] | l | [|[k v'] d]];
    try (by destruct (Hlist l));
    destruct x; cbn [extract endpoint record_of] in *; unfold_extractors;
    unfold IncrementalLoad.yield_user, BigQueryPipeline.yield_user,
      BigQueryPipeline.yield_post;
    run_extractor; by split.
Qed.

Lemma non_list_json_yields_nothing_witness :
  let v := PyDict [(lit "error", PyStr (lit "rate limited"))] in
  let w := World ∅ (λ _ _, Response 200 (Some v)) (λ _, [])
             (λ _ _, true) (λ _ _, None) (λ _ _, Done []) in
  http w (ticks Sample.start) (endpoint Simple_load_posts) = Response 200 (Some v) ∧
  ¬ (400 ≤ 200 < 600) ∧
  (∀ l, v ≠ PyList l) ∧
  yields (extract Simple_load_posts w Sample.start) = [] ∧
  outcome (extract Simple_load_posts w Sample.start) =
    if empty_container v then Done tt else Raised TypeError.
Proof.
  intros v w. split_and!; [reflexivity | lia | discriminate | ..];
    apply (non_list_json_yields_nothing Simple_load_posts w Sample.start 200 v);
    (reflexivity || lia || discriminate).
Defined.

(** ** The extractors of [01_simple_pipeline.py] *)

Lemma post_record_copied p :
  post_has_keys p → ∃ r, SimplePipeline.post_record p = Done r ∧ copied p r.
Proof.
  intros ((v1 & H1) & (v2 & H2) & (v3 & H3) & (v4 & H4)).
  exists (SimplePipeline.PostRow v1 v2 v3 v4). split; [|done].
  unfold SimplePipeline.post_record.
  apply at_path_py_path in H1, H2, H3, H4. by rewrite H1, H2, H3, H4.
Qed.

Lemma post_records_copied posts :
  Forall post_has_keys posts →
  ∃ rows, Forall2 (λ p r, SimplePipeline.post_record p = Done r) posts rows ∧
          Forall2 copied posts rows.
Proof.
  induction 1 as [|p posts Hp _ (rows & IH1 & IH2)].
  - exists []. by split.
  - destruct (post_record_copied p Hp) as (r & Hr & Hc).
    exists (r :: rows). split; by constructor.
Qed.

(** X5.  When the posts endpoint answers (with a status that is not an error
    status) a list of objects that have the keys [id], [userId], [title] and
    [body], [load_posts] ends normally and yields one record per post, in the
    order of the input, whose four fields are the values under those keys,
    whatever those values are. *)
Theorem load_posts_yields_records
    (w : world) (s : state) (status : Z) (posts : list pyval) :
  http w (ticks s) POSTS_URL = Response status (Some (PyList posts)) →
  ¬ (400 ≤ status < 600) →
  Forall post_has_keys posts →
  outcome (SimplePipeline.load_posts w s) = Done tt ∧
  length (yields (SimplePipeline.load_posts w s)) = length posts ∧
  ∀ i p, posts !! i = Some p →
    ∃ r, yields (SimplePipeline.load_posts w s) !! i = Some r ∧ copied p r.
Proof.
  intros Hreply Hstatus Hposts.
  destruct (post_records_copied posts Hposts) as (rows & Hrows & Hcopied).
  unfold SimplePipeline.load_posts. run_extractor.
  rewrite (for_each_eval_yield _ _ rows) by done. cbn.
  split_and!; [done | symmetry; by eapply Forall2_length |].
  intros i p Hp. by eapply Forall2_lookup_l.
Qed.

Lemma sample_posts_have_keys : Forall post_has_keys Sample.posts.
Proof.
  repeat (constructor; [split_and!; by eexists|]). constructor.
Defined.

Lemma load_posts_yields_records_witness :
  let w := Sample.world_with 200 ∅ in
  http w (ticks Sample.start) POSTS_URL = Response 200 (Some (PyList Sample.posts)) ∧
  ¬ (400 ≤ 200 < 600) ∧
  Forall post_has_keys Sample.posts ∧
  outcome (SimplePipeline.load_posts w Sample.start) = Done tt ∧
  length (yields (SimplePipeline.load_posts w Sample.start)) = length Sample.posts ∧
  ∀ i p, Sample.posts !! i = Some p →
    ∃ r, yields (SimplePipeline.load_posts w Sample.start) !! i = Some r ∧ copied p r.
Proof.
  intros w.
  split_and!; [reflexivity | lia | exact sample_posts_have_keys |..];
    apply (load_posts_yields_records w Sample.start 200 Sample.posts);
    (reflexivity || lia || exact sample_posts_have_keys).
Defined.

Lemma py_path_raises v ks e : py_path v ks = Raised e → subscript_error e.
Proof.
  revert v. induction ks as [|k ks IH]; intros v; cbn; [discriminate|].
  destruct v; cbn; try (intros [= <-]; by left).
  destruct (dict_get d k) as [x|]; cbn; [apply IH|].
  intros [= <-]. right. eauto.
Qed.

(** What the dict display of [load_users] gives is made of the values under
    the expected keys. *)
Lemma user_record_inv u r :
  SimplePipeline.user_record u = Done r → projects u r.
Proof.
  unfold SimplePipeline.user_record. intros H.
  repeat match type of H with
  | mbind _ (py_path ?v ?ks) = _ =>
      let Hp := fresh "Hp" in
      destruct (py_path v ks) eqn:Hp; cbn [mbind result_bind] in H;
      [apply at_path_py_path in Hp | discriminate H]
  end.
  injection H as <-. unfold projects, user_paths.
  cbn [fmap list_fmap user_fields]. congruence.
Qed.

Lemma user_record_raises u e :
  SimplePipeline.user_record u = Raised e → subscript_error e.
Proof.
  unfold SimplePipeline.user_record. intros H.
  repeat match type of H with
  | mbind _ (py_path ?v ?ks) = _ =>
      let Hp := fresh "Hp" in
      destruct (py_path v ks) eqn:Hp; cbn [mbind result_bind] in H;
      [|injection H as <-; by eapply py_path_raises]
  end.
  discriminate H.
Qed.

Lemma projects_has_expected_keys u r : projects u r → has_expected_keys u.
Proof.
  unfold projects, has_expected_keys.
  generalize user_paths (user_fields r). intros paths.
  induction paths as [|ks paths IH]; intros [|v vs] Heq;
    try discriminate; [constructor|].
  cbn in Heq. injection Heq as Hv Hvs. constructor; eauto.
Qed.

(** A loop that evaluates and yields stops at the first item whose
    evaluation raises, after the records of the items before it. *)
Lemma for_each_eval_yield_stops {A Y} (f : A → result Y) xs rows x xs' e w s :
  Forall2 (λ x r, f x = Done r) xs rows →
  f x = Raised e →
  for_each (xs ++ x :: xs') (λ x, row ← eval (f x); yield row) w s =
    Run rows s (Raised e).
Proof.
  intros Hxs Hx. induction Hxs as [|y r xs rows Hy _ IH]; cbn [app for_each].
  - erewrite bind_raised; [done|].
    erewrite bind_raised; [done|]. by apply eval_raised.
  - rewrite bind_run.
    erewrite (bind_done (eval (f y))) by (by apply eval_done).
    cbn. by rewrite IH.
Qed.

(** X6.  [load_users] yields as it goes: when the list of the response holds
    a user object that lacks one of the expected keys, the run yields the
    records of the users before it, in order, and then raises the error of
    the failed subscript ([KeyError] for an absent key, [TypeError] when
    what is subscripted is not a dict); the users after it are not read. *)
Theorem load_users_stops_at_malformed
    (w : world) (s : state) (status : Z) (good : list pyval) (bad : pyval)
    (rest : list pyval) :
  http w (ticks s) USERS_URL = Response status (Some (PyList (good ++ bad :: rest))) →
  ¬ (400 ≤ status < 600) →
  Forall has_expected_keys good →
  ¬ has_expected_keys bad →
  length (yields (SimplePipeline.load_users w s)) = length good ∧
  (∀ i u, good !! i = Some u →
     ∃ r, yields (SimplePipeline.load_users w s) !! i = Some r ∧ projects u r) ∧
  ∃ e, outcome (SimplePipeline.load_users w s) = Raised e ∧ subscript_error e.
Proof.
  intros Hreply Hstatus Hgood Hbad.
  destruct (user_records_projects good Hgood) as (rows & Hrows & Hproj).
  destruct (SimplePipeline.user_record bad) as [r|e] eqn:Hrecord.
  { destruct Hbad. by eapply projects_has_expected_keys, user_record_inv. }
  unfold SimplePipeline.load_users. run_extractor.
  rewrite (for_each_eval_yield_stops _ good rows bad rest e) by done. cbn.
  split_and!.
  - symmetry. by eapply Forall2_length.
  - intros i u Hu. by eapply Forall2_lookup_l.
  - exists e. split; [done | by eapply user_record_raises].
Qed.

Lemma load_users_stops_at_malformed_witness :
  let good := [Sample.user 1 "Leanne Graham"] in
  let bad := PyDict [(lit "id", PyInt 2)] in
  let rest := [Sample.user 3 "Clementine Bauch"] in
  let w := World ∅ (λ _ _, Response 200 (Some (PyList (good ++ bad :: rest))))
             (λ _, []) (λ _ _, true) (λ _ _, None) (λ _ _, Done []) in
  http w (ticks Sample.start) USERS_URL =
    Response 200 (Some (PyList (good ++ bad :: rest))) ∧
  ¬ (400 ≤ 200 < 600) ∧
  Forall has_expected_keys good ∧
  ¬ has_expected_keys bad ∧
  length (yields (SimplePipeline.load_users w Sample.start)) = length good ∧
  (∀ i u, good !! i = Some u →
     ∃ r, yields (SimplePipeline.load_users w Sample.start) !! i = Some r ∧
          projects u r) ∧
  ∃ e, outcome (SimplePipeline.load_users w Sample.start) = Raised e ∧
       subscript_error e.
Proof.
  intros good bad rest w.
  assert (Forall has_expected_keys good) as Hgood.
  { repeat (constructor; [repeat (constructor; [by eexists|]); constructor|]).
    constructor. }
  assert (¬ has_expected_keys bad) as Hbad.
  { intros H. inversion H as [|? ? _ H']. inversion H' as [|? ? [v Hv] _].
    vm_compute in Hv. discriminate Hv. }
  split_and!; [reflexivity | lia | exact Hgood | exact Hbad | ..];
    apply (load_users_stops_at_malformed w Sample.start 200 good bad rest);
    (reflexivity || lia || exact Hgood || exact Hbad).
Defined.

(** ** The extractors of [02_incremental_load.py] *)

Lemma is_new_int_id last_value p :
  has_int_id p →
  IncrementalLoad.is_new last_value p = Done (exceeds last_value p).
Proof.
  intros [i Hid]. unfold IncrementalLoad.is_new, exceeds. rewrite Hid.
  apply at_path_py_path in Hid. cbn in Hid.
  destruct (py_getitem p (lit "id")) as [v|]; cbn in Hid |- *; [|done].
  injection Hid as ->. cbn. f_equal.
  destruct (Z.gtb_spec i last_value).
  - by rewrite bool_decide_eq_true_2.
  - rewrite bool_decide_eq_false_2; [done | lia].
Qed.

(** A comprehension stops at the first item whose condition raises. *)
Lemma comprehension_if_raises {A} (cond : A → result bool) xs x xs' e :
  Forall (λ y, ∃ b, cond y = Done b) xs →
  cond x = Raised e →
  comprehension_if (xs ++ x :: xs') cond = Raised e.
Proof.
  intros Hxs Hx. induction Hxs as [|y xs [b Hy] _ IH]; cbn.
  - by rewrite Hx.
  - by rewrite Hy, IH.
Qed.

(** X7.  [load_posts_incremental] filters the whole list before it yields
    anything: when a post of the response has no [id], wherever it is in the
    list and however many new posts come before it, the run raises
    [KeyError('id')] and yields no record at all. *)
Theorem load_posts_incremental_all_or_nothing
    (last_value : Z) (w : world) (s : state) (status : Z)
    (before : list pyval) (d : list (pystr * pyval)) (rest : list pyval) :
  http w (ticks s) POSTS_URL =
    Response status (Some (PyList (before ++ PyDict d :: rest))) →
  ¬ (400 ≤ status < 600) →
  Forall has_int_id before →
  dict_get d (lit "id") = None →
  yields (IncrementalLoad.load_posts_incremental last_value w s) = [] ∧
  outcome (IncrementalLoad.load_posts_incremental last_value w s) =
    Raised (KeyError (lit "id")).
Proof.
  intros Hreply Hstatus Hbefore Hid.
  unfold IncrementalLoad.load_posts_incremental. run_extractor.
  erewrite bind_raised; [done|].
  apply eval_raised, comprehension_if_raises.
  - eapply Forall_impl; [exact Hbefore|]. intros p Hp.
    eexists. by apply is_new_int_id.
  - unfold IncrementalLoad.is_new. cbn. by rewrite Hid.
Qed.

Lemma load_posts_incremental_all_or_nothing_witness :
  let d := [(lit "title", PyStr (lit "no id"))] in
  let w := World ∅ (λ _ _, Response 200 (Some (PyList (Sample.posts ++ PyDict d :: []))))
             (λ _, []) (λ _ _, true) (λ _ _, None) (λ _ _, Done []) in
  http w (ticks Sample.start) POSTS_URL =
    Response 200 (Some (PyList (Sample.posts ++ PyDict d :: []))) ∧
  ¬ (400 ≤ 200 < 600) ∧
  Forall has_int_id Sample.posts ∧
  dict_get d (lit "id") = None ∧
  yields (IncrementalLoad.load_posts_incremental 0 w Sample.start) = [] ∧
  outcome (IncrementalLoad.load_posts_incremental 0 w Sample.start) =
    Raised (KeyError (lit "id")).
Proof.
  intros d w.
  assert (Forall has_int_id Sample.posts) as Hids
    by (repeat (constructor; [by eexists|]); constructor).
  split_and!; [reflexivity | lia | exact Hids | reflexivity | ..];
    apply (load_posts_incremental_all_or_nothing 0 w Sample.start 200
             Sample.posts d []);
    (reflexivity || lia || exact Hids).
Defined.

Lemma Forall_filter_true {A} (P : A → Prop) (f : A → bool) xs :
  Forall (λ x, f x = true → P x) xs → Forall P (List.filter f xs).
Proof.
  induction 1 as [|x xs Hx _ IH]; cbn; [constructor|].
  destruct (f x); [constructor; auto | done].
Qed.

(** X8.  Only the posts that pass the filter are read further: a post whose
    [id] does not exceed [last_value] needs nothing but its integer [id]
    (its [userId], [title] and [body] may be absent); the run ends normally
    and yields exactly the reshaped posts whose [id] exceeds [last_value]. *)
Theorem load_posts_incremental_reads_new_posts_only
    (last_value : Z) (w : world) (s : state) (status : Z) (posts : list pyval) :
  http w (ticks s) POSTS_URL = Response status (Some (PyList posts)) →
  ¬ (400 ≤ status < 600) →
  Forall (λ p, has_int_id p ∧
               (exceeds last_value p = true → well_formed_post p)) posts →
  outcome (IncrementalLoad.load_posts_incremental last_value w s) = Done tt ∧
  Forall2 reshaped (List.filter (exceeds last_value) posts)
    (yields (IncrementalLoad.load_posts_incremental last_value w s)).
Proof.
  intros Hreply Hstatus Hposts.
  unfold IncrementalLoad.load_posts_incremental. run_extractor.
  erewrite bind_done.
  2:{ apply eval_done, (comprehension_if_filter _ (exceeds last_value)).
      eapply Forall_impl; [exact Hposts|]. intros p [Hp _].
      by apply is_new_int_id. }
  run_extractor.
  match goal with |- context [for_each ?ps _ w ?s'] =>
    destruct (for_each_yield_post ps w s') as (rows & -> & Hrows & _)
  end.
  { apply Forall_filter_true. eapply Forall_impl; [exact Hposts|].
    by intros p [_ Hp]. }
  by cbn.
Qed.

Lemma load_posts_incremental_reads_new_posts_only_witness :
  let posts := [PyDict [(lit "id", PyInt 1)]; Sample.post 2 1 "qui est esse" "est rerum"] in
  let w := World ∅ (λ _ _, Response 200 (Some (PyList posts)))
             (λ _, []) (λ _ _, true) (λ _ _, None) (λ _ _, Done []) in
  http w (ticks Sample.start) POSTS_URL = Response 200 (Some (PyList posts)) ∧
  ¬ (400 ≤ 200 < 600) ∧
  Forall (λ p, has_int_id p ∧ (exceeds 1 p = true → well_formed_post p)) posts ∧
  outcome (IncrementalLoad.load_posts_incremental 1 w Sample.start) = Done tt ∧
  Forall2 reshaped (List.filter (exceeds 1) posts)
    (yields (IncrementalLoad.load_posts_incremental 1 w Sample.start)).
Proof.
  intros posts w.
  assert (Forall (λ p, has_int_id p ∧ (exceeds 1 p = true → well_formed_post p))
            posts) as Hposts.
  { constructor; [split; [by eexists | discriminate]|].
    constructor; [split; [by eexists | intros _; split_and!; by eexists]|].
    constructor. }
  split_and!; [reflexivity | lia | exact Hposts | ..];
    apply (load_posts_incremental_reads_new_posts_only 1 w Sample.start 200 posts);
    (reflexivity || lia || exact Hposts).
Defined.

Lemma reshaped_same_post p r1 r2 : reshaped p r1 → reshaped p r2 → same_post r1 r2.
Proof.
  intros (H1 & H2 & H3 & H4) (H1' & H2' & H3' & H4').
  unfold same_post. split_and!; congruence.
Qed.

(** X9.  Raising the cursor never brings in a record: over the same posts,
    every record yielded from the cursor value [later] is a record (same
    [post_id], [user_id], [title] and [body]) of the run from any cursor
    value [earlier] that is not greater. *)
Theorem higher_cursor_yields_fewer
    (earlier later : Z) (posts : list pyval)
    (w1 : world) (s1 : state) (status1 : Z)
    (w2 : world) (s2 : state) (status2 : Z) :
  http w1 (ticks s1) POSTS_URL = Response status1 (Some (PyList posts)) →
  ¬ (400 ≤ status1 < 600) →
  http w2 (ticks s2) POSTS_URL = Response status2 (Some (PyList posts)) →
  ¬ (400 ≤ status2 < 600) →
  Forall well_formed_post posts →
  earlier ≤ later →
  ∀ row2, row2 ∈ yields (IncrementalLoad.load_posts_incremental later w2 s2) →
    ∃ row1, row1 ∈ yields (IncrementalLoad.load_posts_incremental earlier w1 s1) ∧
            same_post row1 row2.
Proof.
  intros Hreply1 Hstatus1 Hreply2 Hstatus2 Hposts Hle row2 Hrow2.
  destruct (load_posts_incremental_run earlier w1 s1 status1 posts)
    as (rows1 & <- & _ & Hrows1 & _); [done..|].
  destruct (load_posts_incremental_run later w2 s2 status2 posts)
    as (rows2 & <- & _ & Hrows2 & _); [done..|].
  apply list_elem_of_lookup in Hrow2 as [k Hk].
  destruct (Forall2_lookup_r _ _ _ _ _ Hrows2 Hk) as (p & Hp & Hshape2).
  apply list_elem_of_lookup_2, list_elem_of_In, filter_In in Hp as [Hp Hnew].
  apply list_elem_of_In in Hp.
  unfold exceeds in Hnew.
  destruct (at_path p [lit "id"]) as [[| | i | | | |]|] eqn:Hid; try discriminate.
  apply bool_decide_eq_true in Hnew.
  destruct (exceeding_post_yielded earlier posts _ p i Hrows1 Hp Hid)
    as (row1 & Hrow1 & Hshape1); [lia|].
  exists row1. split; [done | by eapply reshaped_same_post].
Qed.

Lemma higher_cursor_yields_fewer_witness :
  let w := Sample.world_with 200 ∅ in
  let row2 :=
    IncrementalLoad.PostRow (PyInt 3) (PyInt 2) (PyStr (lit "ea molestias"))
      (PyStr (lit "et iusto sed quo iure")) (now_isoformat w 1) in
  http w (ticks Sample.start) POSTS_URL = Response 200 (Some (PyList Sample.posts)) ∧
  ¬ (400 ≤ 200 < 600) ∧
  Forall well_formed_post Sample.posts ∧
  1 ≤ 2 ∧
  row2 ∈ yields (IncrementalLoad.load_posts_incremental 2 w Sample.start) ∧
  ∃ row1, row1 ∈ yields (IncrementalLoad.load_posts_incremental 1 w Sample.start) ∧
          same_post row1 row2.
Proof.
  intros w row2.
  assert (row2 ∈ yields (IncrementalLoad.load_posts_incremental 2 w Sample.start))
    as Hrow2 by (change (row2 ∈ [row2]); apply list_elem_of_here).
  split_and!; [reflexivity | lia | exact sample_posts_well_formed | lia
              | exact Hrow2 |].
  apply (higher_cursor_yields_fewer 1 2 Sample.posts w Sample.start 200
           w Sample.start 200);
    [reflexivity | lia | reflexivity | lia | exact sample_posts_well_formed | lia
    | exact Hrow2].
Defined.

Lemma filter_all {A} (f : A → bool) xs :
  Forall (λ x, f x = true) xs → List.filter f xs = xs.
Proof. induction 1 as [|x xs Hx _ IH]; cbn; [done|]. by rewrite Hx, IH. Qed.

(** X10.  When every post of the response has an [id] greater than the
    cursor (as on a first run, from [initial_value=0], over positive
    identifiers), the run yields every post, one record each, in order. *)
Theorem first_run_yields_every_post
    (last_value : Z) (w : world) (s : state) (status : Z) (posts : list pyval) :
  http w (ticks s) POSTS_URL = Response status (Some (PyList posts)) →
  ¬ (400 ≤ status < 600) →
  Forall well_formed_post posts →
  (∀ p i, p ∈ posts → at_path p [lit "id"] = Some (PyInt i) → last_value < i) →
  outcome (IncrementalLoad.load_posts_incremental last_value w s) = Done tt ∧
  length (yields (IncrementalLoad.load_posts_incremental last_value w s)) =
    length posts ∧
  Forall2 reshaped posts
    (yields (IncrementalLoad.load_posts_incremental last_value w s)).
Proof.
  intros Hreply Hstatus Hposts Hnew.
  destruct (load_posts_incremental_run last_value w s status posts)
    as (rows & <- & Hend & Hrows & _); [done..|].
  rewrite filter_all in Hrows.
  - split_and!; [done | symmetry; by eapply Forall2_length | done].
  - apply Forall_forall. intros p Hp.
    rewrite Forall_forall in Hposts. destruct (Hposts p Hp) as [[i Hid] _].
    unfold exceeds. rewrite Hid. apply bool_decide_eq_true. by eapply Hnew.
Qed.

Lemma first_run_yields_every_post_witness :
  let w := Sample.world_with 200 ∅ in
  http w (ticks Sample.start) POSTS_URL = Response 200 (Some (PyList Sample.posts)) ∧
  ¬ (400 ≤ 200 < 600) ∧
  Forall well_formed_post Sample.posts ∧
  (∀ p i, p ∈ Sample.posts → at_path p [lit "id"] = Some (PyInt i) → 0 < i) ∧
  outcome (IncrementalLoad.load_posts_incremental 0 w Sample.start) = Done tt ∧
  length (yields (IncrementalLoad.load_posts_incremental 0 w Sample.start)) =
    length Sample.posts ∧
  Forall2 reshaped Sample.posts
    (yields (IncrementalLoad.load_posts_incremental 0 w Sample.start)).
Proof.
  intros w.
  assert (∀ p i, p ∈ Sample.posts → at_path p [lit "id"] = Some (PyInt i) → 0 < i)
    as Hnew.
  { intros p i Hp Hid. unfold Sample.posts in Hp.
    repeat (apply elem_of_cons in Hp as [->|Hp];
            [vm_compute in Hid; injection Hid as <-; lia|]).
    by apply elem_of_nil in Hp. }
  split_and!; [reflexivity | lia | exact sample_posts_well_formed | exact Hnew | ..];
    apply (first_run_yields_every_post 0 w Sample.start 200 Sample.posts);
    (reflexivity || lia || exact sample_posts_well_formed || exact Hnew).
Defined.

(** One turn of the loop of [load_users_with_timestamp]: the clock is read
    twice. *)
Lemma yield_user_run u w s :
  has_timestamp_keys u →
  ∃ r,
    IncrementalLoad.yield_user u w s =
      Run [r] (State (log s) (S (S (ticks s)))) (Done tt) ∧
    stamped w (ticks s) u r.
Proof.
  intros ((v1 & H1) & (v2 & H2) & (v3 & H3) & (v4 & H4) & (v5 & H5) & (v6 & H6)).
  exists (IncrementalLoad.UserRow v1 v2 v3 v4 v5 v6
            (now_isoformat w (ticks s)) (now_isoformat w (S (ticks s)))).
  split; [|by repeat split].
  unfold IncrementalLoad.yield_user.
  apply at_path_py_path in H1, H2, H3, H4, H5, H6.
  do 6 (erewrite bind_done by (by apply eval_done)).
  do 2 (erewrite bind_done by reflexivity).
  reflexivity.
Qed.

Lemma for_each_yield_user us w s :
  Forall has_timestamp_keys us →
  ∃ rows,
    for_each us IncrementalLoad.yield_user w s =
      Run rows (State (log s) (ticks s + 2 * length us)%nat) (Done tt) ∧
    length rows = length us ∧
    ∀ k u, us !! k = Some u →
      ∃ r, rows !! k = Some r ∧ stamped w (ticks s + 2 * k)%nat u r.
Proof.
  intros Hus. revert s. induction Hus as [|u us Hu _ IH]; intros s.
  - exists []. cbn. rewrite Nat.add_0_r, state_eta. by split_and!.
  - destruct (yield_user_run u w s Hu) as (r & Hrun & Hr).
    destruct (IH (State (log s) (S (S (ticks s))))) as (rows & Hruns & Hlen & Hrows).
    exists (r :: rows). cbn [for_each]. rewrite bind_run, Hrun. cbn.
    rewrite Hruns. cbn. split_and!.
    + do 2 f_equal. lia.
    + by rewrite Hlen.
    + intros [|k] u' Hk; cbn in Hk.
      * injection Hk as <-. exists r. by rewrite Nat.add_0_r.
      * destruct (Hrows k u' Hk) as (r' & Hr' & Hstamp).
        exists r'. split; [done|].
        match type of Hstamp with stamped _ ?t0 _ _ =>
          match goal with |- stamped _ ?t _ _ =>
            replace t with t0 by (cbn; lia)
          end
        end. exact Hstamp.
Qed.

(** X11.  When the users endpoint answers (with a status that is not an error
    status) a list of user objects that have the keys it reads,
    [load_users_with_timestamp] ends normally and yields one record per user,
    in order, with the values under those keys; the clock is read twice for
    each record, [loaded_at] first and [updated_at] after it, so the two
    timestamps of a record are two successive readings, later than those of
    the records before. *)
Theorem load_users_with_timestamp_records
    (w : world) (s : state) (status : Z) (users : list pyval) :
  http w (ticks s) USERS_URL = Response status (Some (PyList users)) →
  ¬ (400 ≤ status < 600) →
  Forall has_timestamp_keys users →
  outcome (IncrementalLoad.load_users_with_timestamp w s) = Done tt ∧
  length (yields (IncrementalLoad.load_users_with_timestamp w s)) = length users ∧
  ∀ k u, users !! k = Some u →
    ∃ r, yields (IncrementalLoad.load_users_with_timestamp w s) !! k = Some r ∧
         stamped w (S (ticks s) + 2 * k)%nat u r.
Proof.
  intros Hreply Hstatus Husers.
  unfold IncrementalLoad.load_users_with_timestamp. run_extractor.
  match goal with |- context [for_each users _ w ?s'] =>
    destruct (for_each_yield_user users w s' Husers) as (rows & -> & Hlen & Hrows)
  end.
  cbn in *. by split_and!.
Qed.

Lemma load_users_with_timestamp_records_witness :
  let w := Sample.world_with 200 ∅ in
  http w (ticks Sample.start) USERS_URL = Response 200 (Some (PyList Sample.users)) ∧
  ¬ (400 ≤ 200 < 600) ∧
  Forall has_timestamp_keys Sample.users ∧
  outcome (IncrementalLoad.load_users_with_timestamp w Sample.start) = Done tt ∧
  length (yields (IncrementalLoad.load_users_with_timestamp w Sample.start)) =
    length Sample.users ∧
  ∀ k u, Sample.users !! k = Some u →
    ∃ r, yields (IncrementalLoad.load_users_with_timestamp w Sample.start) !! k
           = Some r ∧
         stamped w (S (ticks Sample.start) + 2 * k)%nat u r.
Proof.
  intros w.
  assert (Forall has_timestamp_keys Sample.users) as Hkeys
    by (repeat (constructor; [split_and!; by eexists|]); constructor).
  split_and!; [reflexivity | lia | exact Hkeys | ..];
    apply (load_users_with_timestamp_records w Sample.start 200 Sample.users);
    (reflexivity || lia || exact Hkeys).
Defined.

(** ** The extractors of [bigquery_pipeline.py] *)

(** Closes a goal with a hypothesis that differs in the clock reading only. *)
Ltac same_reading H :=
  match type of H with ?P ?t0 ?x ?r =>
    match goal with |- ?P ?t ?x ?r => replace t with t0 by (cbn; lia) end
  end; exact H.

(** A loop whose every turn reads the clock [c] times and yields one record. *)
Lemma for_each_yields_all {A Y} (body : A → Gen Y unit) (c : nat)
    (R : nat → A → Y → Prop) xs w s :
  Forall (λ x, ∀ s, ∃ r,
            body x w s = Run [r] (State (log s) (c + ticks s)%nat) (Done tt) ∧
            R (ticks s) x r) xs →
  ∃ rows,
    for_each xs body w s =
      Run rows (State (log s) (c * length xs + ticks s)%nat) (Done tt) ∧
    length rows = length xs ∧
    ∀ k x, xs !! k = Some x → ∃ r, rows !! k = Some r ∧ R (c * k + ticks s)%nat x r.
Proof.
  intros Hxs. revert s. induction Hxs as [|x xs Hx _ IH]; intros s.
  - exists []. cbn. rewrite Nat.mul_0_r, state_eta. by split_and!.
  - destruct (Hx s) as (r & Hrun & Hr).
    destruct (IH (State (log s) (c + ticks s)%nat)) as (rows & Hruns & Hlen & Hrows).
    exists (r :: rows). cbn [for_each]. rewrite bind_run, Hrun. cbn.
    rewrite Hruns. cbn. split_and!.
    + do 2 f_equal. lia.
    + by rewrite Hlen.
    + intros [|k] x' Hk; cbn in Hk.
      * injection Hk as <-. exists r. by rewrite Nat.mul_0_r.
      * destruct (Hrows k x' Hk) as (r' & Hr' & HR).
        exists r'. split; [done|].
        match type of HR with R ?t0 _ _ =>
          match goal with |- R ?t _ _ => replace t with t0 by (cbn; lia) end
        end. exact HR.
Qed.

(** The same loop stops at the first turn that raises before it yields. *)
Lemma for_each_yields_until {A Y} (body : A → Gen Y unit) (c : nat)
    (R : nat → A → Y → Prop) xs x xs' e w s :
  Forall (λ x, ∀ s, ∃ r,
            body x w s = Run [r] (State (log s) (c + ticks s)%nat) (Done tt) ∧
            R (ticks s) x r) xs →
  (∀ s, yields (body x w s) = [] ∧ outcome (body x w s) = Raised e) →
  length (yields (for_each (xs ++ x :: xs') body w s)) = length xs ∧
  (∀ k y, xs !! k = Some y →
     ∃ r, yields (for_each (xs ++ x :: xs') body w s) !! k = Some r ∧
          R (c * k + ticks s)%nat y r) ∧
  outcome (for_each (xs ++ x :: xs') body w s) = Raised e.
Proof.
  intros Hxs Hx. revert s. induction Hxs as [|y xs Hy _ IH]; intros s;
    cbn [app for_each]; rewrite bind_run.
  - destruct (Hx s) as [-> ->]. cbn. split_and!; [done | | done].
    intros k y Hk. by rewrite lookup_nil in Hk.
  - destruct (Hy s) as (r & -> & Hr). cbn [yields outcome final].
    destruct (IH (State (log s) (c + ticks s)%nat)) as (Hlen & Hrows & ->).
    cbn. split_and!; [by rewrite Hlen | | done].
    intros [|k] y' Hk; cbn in Hk.
    + injection Hk as <-. exists r. by rewrite Nat.mul_0_r.
    + destruct (Hrows k y' Hk) as (r' & Hr' & HR).
      exists r'. split; [done|].
      match type of HR with R ?t0 _ _ =>
        match goal with |- R ?t _ _ => replace t with t0 by (cbn; lia) end
      end. exact HR.
Qed.

Lemma bq_yield_user_run py_float u w s :
  convertible py_float u →
  ∃ r,
    BigQueryPipeline.yield_user py_float u w s =
      Run [r] (State (log s) (1 + ticks s)%nat) (Done tt) ∧
    converted py_float w (ticks s) u r.
Proof.
  intros ((v1 & H1) & (v2 & H2) & (v3 & H3) & (v4 & H4) & (v5 & H5) & (v6 & H6) &
          (v7 & H7) & (v8 & H8) & (x9 & f9 & H9 & Hf9) & (x10 & f10 & H10 & Hf10) &
          (v11 & H11)).
  exists (BigQueryPipeline.UserRow v1 v2 v3 v4 v5 v6 v7 v8 f9 f10 v11
            (now_isoformat w (ticks s))).
  split; [|unfold converted; cbn; split_and!; eauto].
  unfold BigQueryPipeline.yield_user.
  pose proof (proj1 (at_path_py_path _ _ _) H1) as P1.
  pose proof (proj1 (at_path_py_path _ _ _) H2) as P2.
  pose proof (proj1 (at_path_py_path _ _ _) H3) as P3.
  pose proof (proj1 (at_path_py_path _ _ _) H4) as P4.
  pose proof (proj1 (at_path_py_path _ _ _) H5) as P5.
  pose proof (proj1 (at_path_py_path _ _ _) H6) as P6.
  pose proof (proj1 (at_path_py_path _ _ _) H7) as P7.
  pose proof (proj1 (at_path_py_path _ _ _) H8) as P8.
  pose proof (proj1 (at_path_py_path _ _ _) H9) as P9.
  pose proof (proj1 (at_path_py_path _ _ _) H10) as P10.
  pose proof (proj1 (at_path_py_path _ _ _) H11) as P11.
  do 8 (erewrite bind_done by (by apply eval_done)).
  rewrite P9, P10. cbn [mbind result_bind].
  do 3 (erewrite bind_done by (by apply eval_done)).
  erewrite bind_done by reflexivity.
  reflexivity.
Qed.

(** X12.  When the users endpoint answers (with a status that is not an error
    status) a list of user objects that have the keys it reads and whose
    latitude and longitude [float] accepts, [load_users] of the BigQuery
    pipeline ends normally and yields one record per user, in order: the
    values under those keys, [latitude] and [longitude] being the results of
    [float] on [lat] and [lng], and [loaded_at] one clock reading per
    record. *)
Theorem bigquery_load_users_converts
    (py_float : pyval → result spec_float)
    (w : world) (s : state) (status : Z) (users : list pyval) :
  http w (ticks s) USERS_URL = Response status (Some (PyList users)) →
  ¬ (400 ≤ status < 600) →
  Forall (convertible py_float) users →
  outcome (BigQueryPipeline.load_users py_float w s) = Done tt ∧
  length (yields (BigQueryPipeline.load_users py_float w s)) = length users ∧
  ∀ k u, users !! k = Some u →
    ∃ r, yields (BigQueryPipeline.load_users py_float w s) !! k = Some r ∧
         converted py_float w (S (ticks s) + k)%nat u r.
Proof.
  intros Hreply Hstatus Husers.
  unfold BigQueryPipeline.load_users. run_extractor.
  match goal with |- context [for_each users _ w ?s'] =>
    destruct (for_each_yields_all (BigQueryPipeline.yield_user py_float) 1
                (converted py_float w) users w s')
      as (rows & -> & Hlen & Hrows)
  end.
  { eapply Forall_impl; [exact Husers|]. intros u Hu s'.
    by apply bq_yield_user_run. }
  cbn in *. split_and!; [done | done |].
  intros k u Hu. destruct (Hrows k u Hu) as (r & Hr & Hconv).
  exists r. split; [done|].
  same_reading Hconv.
Qed.

Lemma located_user_convertible id lat lng :
  convertible float_of_float (located_user id (PyFloat lat) (PyFloat lng)).
Proof. unfold convertible. split_and!; by repeat eexists. Defined.

Lemma bigquery_load_users_converts_witness :
  let users := [located_user 1 (PyFloat (S754_zero false)) (PyFloat (S754_zero true))] in
  let w := world_answering (PyList users) in
  http w (ticks Sample.start) USERS_URL = Response 200 (Some (PyList users)) ∧
  ¬ (400 ≤ 200 < 600) ∧
  Forall (convertible float_of_float) users ∧
  outcome (BigQueryPipeline.load_users float_of_float w Sample.start) = Done tt ∧
  length (yields (BigQueryPipeline.load_users float_of_float w Sample.start)) =
    length users ∧
  ∀ k u, users !! k = Some u →
    ∃ r, yields (BigQueryPipeline.load_users float_of_float w Sample.start) !! k
           = Some r ∧
         converted float_of_float w (S (ticks Sample.start) + k)%nat u r.
Proof.
  intros users w.
  assert (Forall (convertible float_of_float) users) as Husers
    by (constructor; [apply located_user_convertible | constructor]).
  split_and!; [reflexivity | lia | exact Husers | ..];
    apply (bigquery_load_users_converts float_of_float w Sample.start 200 users);
    (reflexivity || lia || exact Husers).
Defined.

Lemma bq_yield_user_bad_latitude py_float u x e w s :
  has_keys_before_latitude u →
  at_path u [lit "address"; lit "geo"; lit "lat"] = Some x →
  py_float x = Raised e →
  yields (BigQueryPipeline.yield_user py_float u w s) = [] ∧
  outcome (BigQueryPipeline.yield_user py_float u w s) = Raised e.
Proof.
  intros ((v1 & H1) & (v2 & H2) & (v3 & H3) & (v4 & H4) & (v5 & H5) & (v6 & H6) &
          (v7 & H7) & (v8 & H8)) H9 Hf.
  unfold BigQueryPipeline.yield_user.
  apply at_path_py_path in H1, H2, H3, H4, H5, H6, H7, H8, H9.
  do 8 (erewrite bind_done by (by apply eval_done)).
  rewrite H9. cbn [mbind result_bind]. rewrite Hf.
  by erewrite bind_raised by reflexivity.
Qed.

(** X13.  A latitude that [float] rejects stops [load_users] of the BigQuery
    pipeline where it is: the records of the users before it are yielded, in
    order and converted as in a run that ends normally (one clock reading
    each), and no other record; then the exception of [float] goes to the
    caller, whatever the users after it are. *)
Theorem bigquery_load_users_stops_at_bad_latitude
    (py_float : pyval → result spec_float)
    (w : world) (s : state) (status : Z)
    (good : list pyval) (bad : pyval) (rest : list pyval) (x : pyval) (e : exn) :
  http w (ticks s) USERS_URL = Response status (Some (PyList (good ++ bad :: rest))) →
  ¬ (400 ≤ status < 600) →
  Forall (convertible py_float) good →
  has_keys_before_latitude bad →
  at_path bad [lit "address"; lit "geo"; lit "lat"] = Some x →
  py_float x = Raised e →
  length (yields (BigQueryPipeline.load_users py_float w s)) = length good ∧
  (∀ k u, good !! k = Some u →
     ∃ r, yields (BigQueryPipeline.load_users py_float w s) !! k = Some r ∧
          converted py_float w (S (ticks s) + k)%nat u r) ∧
  outcome (BigQueryPipeline.load_users py_float w s) = Raised e.
Proof.
  intros Hreply Hstatus Hgood Hkeys Hlat Hfloat.
  unfold BigQueryPipeline.load_users. run_extractor.
  match goal with |- context [for_each _ _ w ?s'] =>
    destruct (for_each_yields_until (BigQueryPipeline.yield_user py_float) 1
                (converted py_float w) good bad rest e w s')
      as (Hlen & Hrows & Hout)
  end.
  - eapply Forall_impl; [exact Hgood|]. intros u Hu s'.
    by apply bq_yield_user_run.
  - intros s'. by eapply bq_yield_user_bad_latitude.
  - split_and!; [exact Hlen | | exact Hout].
    intros k u Hu. destruct (Hrows k u Hu) as (r & Hr & Hconv).
    exists r. split; [exact Hr|]. same_reading Hconv.
Qed.

Lemma bigquery_load_users_stops_at_bad_latitude_witness :
  let good := [located_user 1 (PyFloat (S754_zero false)) (PyFloat (S754_zero true))] in
  let bad := located_user 2 PyNone (PyFloat (S754_zero false)) in
  let rest := [located_user 3 (PyFloat (S754_zero true)) (PyFloat (S754_zero true))] in
  let x := PyNone in
  let w := world_answering (PyList (good ++ bad :: rest)) in
  http w (ticks Sample.start) USERS_URL =
    Response 200 (Some (PyList (good ++ bad :: rest))) ∧
  ¬ (400 ≤ 200 < 600) ∧
  Forall (convertible float_of_float) good ∧
  has_keys_before_latitude bad ∧
  at_path bad [lit "address"; lit "geo"; lit "lat"] = Some x ∧
  float_of_float x = Raised TypeError ∧
  length (yields (BigQueryPipeline.load_users float_of_float w Sample.start)) =
    length good ∧
  (∀ k u, good !! k = Some u →
     ∃ r, yields (BigQueryPipeline.load_users float_of_float w Sample.start) !! k
            = Some r ∧
          converted float_of_float w (S (ticks Sample.start) + k)%nat u r) ∧
  outcome (BigQueryPipeline.load_users float_of_float w Sample.start) =
    Raised TypeError.
Proof.
  intros good bad rest x w.
  assert (Forall (convertible float_of_float) good) as Hgood
    by (constructor; [apply located_user_convertible | constructor]).
  assert (has_keys_before_latitude bad) as Hbad
    by (unfold has_keys_before_latitude; split_and!; by eexists).
  split_and!; [reflexivity | lia | exact Hgood | exact Hbad | reflexivity
              | reflexivity | ..];
    apply (bigquery_load_users_stops_at_bad_latitude float_of_float w Sample.start
             200 good bad rest x TypeError);
    (reflexivity || lia || exact Hgood || exact Hbad).
Defined.

Lemma bq_yield_post_run p w s :
  measurable p →
  ∃ r,
    BigQueryPipeline.yield_post p w s =
      Run [r] (State (log s) (1 + ticks s)%nat) (Done tt) ∧
    loaded w (ticks s) p r.
Proof.
  intros ((v1 & H1) & (v2 & H2) & (t & n3 & H3 & Hn3) & (b & n4 & H4 & Hn4)).
  exists (BigQueryPipeline.PostRow v1 v2 t b n3 n4 (now_isoformat w (ticks s))).
  split; [|by repeat split].
  unfold BigQueryPipeline.yield_post.
  apply at_path_py_path in H1, H2, H3, H4.
  do 4 (erewrite bind_done by (by apply eval_done)).
  rewrite H3, H4. cbn [mbind result_bind].
  do 2 (erewrite bind_done by (by apply eval_done)).
  erewrite bind_done by reflexivity.
  reflexivity.
Qed.

(** X14.  When the posts endpoint answers (with a status that is not an error
    status) a list of post objects whose [title] and [body] have a length,
    [load_posts] of the BigQuery pipeline ends normally and yields one record
    per post, in order, with the values of the post, the two lengths, and one
    clock reading per record. *)
Theorem bigquery_load_posts_measures
    (w : world) (s : state) (status : Z) (posts : list pyval) :
  http w (ticks s) POSTS_URL = Response status (Some (PyList posts)) →
  ¬ (400 ≤ status < 600) →
  Forall measurable posts →
  outcome (BigQueryPipeline.load_posts w s) = Done tt ∧
  length (yields (BigQueryPipeline.load_posts w s)) = length posts ∧
  ∀ k p, posts !! k = Some p →
    ∃ r, yields (BigQueryPipeline.load_posts w s) !! k = Some r ∧
         loaded w (S (ticks s) + k)%nat p r.
Proof.
  intros Hreply Hstatus Hposts.
  unfold BigQueryPipeline.load_posts. run_extractor.
  match goal with |- context [for_each posts _ w ?s'] =>
    destruct (for_each_yields_all BigQueryPipeline.yield_post 1 (loaded w) posts w s')
      as (rows & -> & Hlen & Hrows)
  end.
  { eapply Forall_impl; [exact Hposts|]. intros p Hp s'.
    by apply bq_yield_post_run. }
  cbn in *. split_and!; [done | done |].
  intros k p Hp. destruct (Hrows k p Hp) as (r & Hr & Hloaded).
  exists r. split; [done|]. same_reading Hloaded.
Qed.

Lemma sample_posts_measurable : Forall measurable Sample.posts.
Proof.
  repeat (constructor; [unfold measurable; split_and!; by repeat eexists|]).
  constructor.
Defined.

Lemma bigquery_load_posts_measures_witness :
  let w := Sample.world_with 200 ∅ in
  http w (ticks Sample.start) POSTS_URL = Response 200 (Some (PyList Sample.posts)) ∧
  ¬ (400 ≤ 200 < 600) ∧
  Forall measurable Sample.posts ∧
  outcome (BigQueryPipeline.load_posts w Sample.start) = Done tt ∧
  length (yields (BigQueryPipeline.load_posts w Sample.start)) = length Sample.posts ∧
  ∀ k p, Sample.posts !! k = Some p →
    ∃ r, yields (BigQueryPipeline.load_posts w Sample.start) !! k = Some r ∧
         loaded w (S (ticks Sample.start) + k)%nat p r.
Proof.
  intros w.
  split_and!; [reflexivity | lia | exact sample_posts_measurable | ..];
    apply (bigquery_load_posts_measures w Sample.start 200 Sample.posts);
    (reflexivity || lia || exact sample_posts_measurable).
Defined.

Lemma bq_yield_post_no_length p t w s :
  is_Some (at_path p [lit "id"]) →
  is_Some (at_path p [lit "userId"]) →
  at_path p [lit "title"] = Some t →
  is_Some (at_path p [lit "body"]) →
  (∀ n, py_len t ≠ Done n) →
  yields (BigQueryPipeline.yield_post p w s) = [] ∧
  outcome (BigQueryPipeline.yield_post p w s) = Raised TypeError.
Proof.
  intros [v1 H1] [v2 H2] H3 [v4 H4] Hlen.
  unfold BigQueryPipeline.yield_post.
  apply at_path_py_path in H1, H2, H3, H4.
  do 4 (erewrite bind_done by (by apply eval_done)).
  rewrite H3. cbn [mbind result_bind].
  assert (py_len t = Raised TypeError) as ->.
  { destruct t; cbn in *; try done; by destruct (Hlen _ eq_refl). }
  by erewrite bind_raised by reflexivity.
Qed.

(** X15.  A post whose [title] has no length (a number, a boolean, [null])
    stops [load_posts] of the BigQuery pipeline with [TypeError]: the records
    of the posts before it are yielded, in order and with their lengths as in
    a run that ends normally (one clock reading each), and no other record;
    [load_posts] of [01_simple_pipeline.py], which takes no length, yields a
    record for the same post. *)
Theorem bigquery_load_posts_stops_at_unmeasurable_title
    (w : world) (s : state) (status : Z)
    (good : list pyval) (bad : pyval) (rest : list pyval) (t : pyval) :
  http w (ticks s) POSTS_URL = Response status (Some (PyList (good ++ bad :: rest))) →
  ¬ (400 ≤ status < 600) →
  Forall measurable good →
  post_has_keys bad →
  at_path bad [lit "title"] = Some t →
  (∀ n, py_len t ≠ Done n) →
  (length (yields (BigQueryPipeline.load_posts w s)) = length good ∧
   (∀ k p, good !! k = Some p →
      ∃ r, yields (BigQueryPipeline.load_posts w s) !! k = Some r ∧
           loaded w (S (ticks s) + k)%nat p r) ∧
   outcome (BigQueryPipeline.load_posts w s) = Raised TypeError) ∧
  (Forall post_has_keys rest →
   length (yields (SimplePipeline.load_posts w s)) = length (good ++ bad :: rest) ∧
   outcome (SimplePipeline.load_posts w s) = Done tt).
Proof.
  intros Hreply Hstatus Hgood (Hid & Huser & _ & Hbody) Htitle Hlen. split.
  - unfold BigQueryPipeline.load_posts. run_extractor.
    match goal with |- context [for_each _ _ w ?s'] =>
      destruct (for_each_yields_until BigQueryPipeline.yield_post 1
                  (loaded w) good bad rest TypeError w s')
        as (Hlength & Hrows & Hout)
    end.
    + eapply Forall_impl; [exact Hgood|]. intros p Hp s'.
      by apply bq_yield_post_run.
    + intros s'. by eapply bq_yield_post_no_length.
    + split_and!; [exact Hlength | | exact Hout].
      intros k p Hp. destruct (Hrows k p Hp) as (r & Hr & Hloaded).
      exists r. split; [exact Hr|]. same_reading Hloaded.
  - intros Hrest.
    assert (Forall post_has_keys (good ++ bad :: rest)) as Hall.
    { apply Forall_app. split.
      - eapply Forall_impl; [exact Hgood|].
        intros p (H1 & H2 & (t' & n & H3 & _) & (b & n' & H4 & _)).
        unfold post_has_keys. eauto.
      - constructor; [|done]. unfold post_has_keys. eauto. }
    destruct (post_records_copied _ Hall) as (rows & Hrows & _).
    unfold SimplePipeline.load_posts. run_extractor.
    rewrite (for_each_eval_yield _ _ rows) by done. cbn.
    split; [symmetry; by eapply Forall2_length | done].
Qed.

Lemma bigquery_load_posts_stops_at_unmeasurable_title_witness :
  let good := [Sample.post 1 1 "sunt aut facere" "quia et suscipit"] in
  let bad := PyDict [ (lit "userId", PyInt 1); (lit "id", PyInt 2);
                      (lit "title", PyNone); (lit "body", PyStr (lit "est rerum")) ] in
  let rest := [Sample.post 3 1 "ea molestias quasi" "et iusto sed quo iure"] in
  let w := world_answering (PyList (good ++ bad :: rest)) in
  http w (ticks Sample.start) POSTS_URL =
    Response 200 (Some (PyList (good ++ bad :: rest))) ∧
  ¬ (400 ≤ 200 < 600) ∧
  Forall measurable good ∧
  post_has_keys bad ∧
  at_path bad [lit "title"] = Some PyNone ∧
  (∀ n, py_len PyNone ≠ Done n) ∧
  Forall post_has_keys rest ∧
  (length (yields (BigQueryPipeline.load_posts w Sample.start)) = length good ∧
   (∀ k p, good !! k = Some p →
      ∃ r, yields (BigQueryPipeline.load_posts w Sample.start) !! k = Some r ∧
           loaded w (S (ticks Sample.start) + k)%nat p r) ∧
   outcome (BigQueryPipeline.load_posts w Sample.start) = Raised TypeError) ∧
  length (yields (SimplePipeline.load_posts w Sample.start)) =
    length (good ++ bad :: rest) ∧
  outcome (SimplePipeline.load_posts w Sample.start) = Done tt.
Proof.
  intros good bad rest w.
  assert (Forall measurable good) as Hgood.
  { constructor; [unfold measurable; split_and!; by repeat eexists | constructor]. }
  assert (post_has_keys bad) as Hbad by (unfold post_has_keys; split_and!; by eexists).
  assert (Forall post_has_keys rest) as Hrest.
  { constructor; [unfold post_has_keys; split_and!; by eexists | constructor]. }
  pose proof (bigquery_load_posts_stops_at_unmeasurable_title w Sample.start 200
                good bad rest PyNone eq_refl ltac:(lia) Hgood Hbad eq_refl
                ltac:(discriminate)) as [Hstops Hsimple].
  split_and!; [reflexivity | lia | exact Hgood | exact Hbad | reflexivity
              | discriminate | exact Hrest | apply Hstops.. | apply Hsimple, Hrest
              | apply Hsimple, Hrest].
Defined.

(** ** The setup check and [main] of [bigquery_pipeline.py] *)

(** X16.  [check_bigquery_setup] returns [True] exactly when the credentials
    file exists and the project ID is not the placeholder
    ['your-project-id']; in particular, with [BIGQUERY_PROJECT_ID] unset it
    returns [False] whatever the credentials are. *)
Theorem check_bigquery_setup_passes_iff (w : world) (s : state) :
  (outcome (BigQueryPipeline.check_bigquery_setup w s) = Done true ↔
     path_exists w (ticks s) (BigQueryPipeline.BIGQUERY_CREDENTIALS w) = true ∧
     BigQueryPipeline.BIGQUERY_PROJECT_ID w ≠ "your-project-id") ∧
  (environ w !! "BIGQUERY_PROJECT_ID" = None →
     outcome (BigQueryPipeline.check_bigquery_setup w s) = Done false).
Proof.
  rewrite check_bigquery_setup_run. cbn [outcome].
  set (found := path_exists w (ticks s) (BigQueryPipeline.BIGQUERY_CREDENTIALS w)).
  split.
  - split.
    + intros [= [Hfound Hproject%bool_decide_eq_true]%andb_true_iff]. done.
    + intros [-> Hproject]. by rewrite bool_decide_eq_true_2.
  - intros Hunset.
    unfold BigQueryPipeline.BIGQUERY_PROJECT_ID, BigQueryPipeline.getenv.
    rewrite Hunset. by destruct found.
Qed.

(** X17.  When the setup check has passed and [run_bigquery_pipeline]
    returns, [main] prints the success message after what
    [run_bigquery_pipeline] had logged (no troubleshooting message) and
    returns normally. *)
Theorem main_reports_success
    (py_float : pyval → result spec_float) (w : world) (s : state)
    (pipeline : pipeline_config) :
  path_exists w (ticks s) (BigQueryPipeline.BIGQUERY_CREDENTIALS w) = true →
  BigQueryPipeline.BIGQUERY_PROJECT_ID w ≠ "your-project-id" →
  outcome (BigQueryPipeline.run_bigquery_pipeline py_float w (pipeline_entry w s))
    = Done pipeline →
  outcome (BigQueryPipeline.main py_float w s) = Done tt ∧
  log (final (BigQueryPipeline.main py_float w s)) =
    log (final (BigQueryPipeline.run_bigquery_pipeline py_float w (pipeline_entry w s)))
      ++ [Print MsgSuccess].
Proof.
  intros Hfound Hproject Hdone.
  rewrite main_setup_complete by done.
  unfold BigQueryPipeline.try_except_Exception.
  rewrite bind_run, Hdone. by cbn.
Qed.

Lemma main_reports_success_witness :
  let w := warehouse_world in
  let pipeline := BigQueryPipeline.pipeline_arguments w in
  path_exists w (ticks Sample.start) (BigQueryPipeline.BIGQUERY_CREDENTIALS w) = true ∧
  BigQueryPipeline.BIGQUERY_PROJECT_ID w ≠ "your-project-id" ∧
  outcome (BigQueryPipeline.run_bigquery_pipeline float_of_float w
             (pipeline_entry w Sample.start)) = Done pipeline ∧
  outcome (BigQueryPipeline.main float_of_float w Sample.start) = Done tt ∧
  log (final (BigQueryPipeline.main float_of_float w Sample.start)) =
    log (final (BigQueryPipeline.run_bigquery_pipeline float_of_float w
                  (pipeline_entry w Sample.start)))
      ++ [Print MsgSuccess].
Proof.
  intros w pipeline.
  split_and!; [reflexivity | discriminate | reflexivity | ..];
    apply (main_reports_success float_of_float w Sample.start pipeline);
    (reflexivity || discriminate).
Defined.

(** X19.  When [dlt.pipeline(...)] raises, [run_bigquery_pipeline] raises the
    same exception right there: after its banner nothing else is printed, no
    request is issued and [pipeline.run] is not called. *)
Theorem pipeline_creation_failure_stops_the_run
    (py_float : pyval → result spec_float) (w : world) (s : state) (e : exn) :
  dlt_pipeline w (ticks s) (BigQueryPipeline.pipeline_arguments w) = Some e →
  outcome (BigQueryPipeline.run_bigquery_pipeline py_float w s) = Raised e ∧
  log (final (BigQueryPipeline.run_bigquery_pipeline py_float w s)) =
    log s ++ [Print MsgRunning;
              CreatePipeline (BigQueryPipeline.pipeline_arguments w)].
Proof.
  intros Hfails. unfold BigQueryPipeline.run_bigquery_pipeline.
  repeat (erewrite bind_done by reflexivity).
  erewrite bind_raised.
  2:{ unfold BigQueryPipeline.dlt_pipeline_call. cbn [ticks log].
      rewrite Hfails. reflexivity. }
  cbn. split; [done | by rewrite <- app_assoc].
Qed.

Lemma pipeline_creation_failure_stops_the_run_witness :
  let w := Sample.world_interrupted in
  dlt_pipeline w (ticks Sample.start) (BigQueryPipeline.pipeline_arguments w) =
    Some KeyboardInterrupt ∧
  outcome (BigQueryPipeline.run_bigquery_pipeline float_of_float w Sample.start) =
    Raised KeyboardInterrupt ∧
  log (final (BigQueryPipeline.run_bigquery_pipeline float_of_float w Sample.start)) =
    log Sample.start ++ [Print MsgRunning;
                         CreatePipeline (BigQueryPipeline.pipeline_arguments w)].
Proof.
  intros w. split; [reflexivity|].
  apply (pipeline_creation_failure_stops_the_run float_of_float w Sample.start
           KeyboardInterrupt).
  reflexivity.
Defined.

(** ** Dict displays with a repeated key *)

Section DictDisplay.
Context {V : Type}.
Implicit Types (d : list (string * V)) (items : list (string * V)).

Lemma dict_lookup_setitem d k v k' :
  Narration.dict_lookup (Narration.dict_setitem d k v) k' =
    if decide (k = k') then Some v else Narration.dict_lookup d k'.
Proof.
  induction d as [|[k0 v0] d IH]; cbn.
  - by destruct (decide (k = k')).
  - destruct (decide (k0 = k)) as [->|Hne]; cbn.
    + by destruct (decide (k = k')).
    + rewrite IH. destruct (decide (k0 = k')) as [->|]; [|done].
      by rewrite decide_False.
Qed.

Lemma dict_setitem_keys_NoDup d k v :
  NoDup d.*1 → NoDup (Narration.dict_setitem d k v).*1.
Proof.
  induction d as [|[k0 v0] d IH]; cbn.
  - intros _. apply NoDup_singleton.
  - intros [Hk0 Hd]%NoDup_cons. destruct (decide (k0 = k)) as [->|Hne]; cbn.
    + by apply NoDup_cons.
    + apply NoDup_cons. split; [|auto].
      intros Hin. apply Hk0. clear -Hin Hne.
      induction d as [|[k1 v1] d IH]; cbn in *.
      * apply list_elem_of_singleton in Hin. congruence.
      * destruct (decide (k1 = k)) as [->|]; cbn in *; [done|].
        apply elem_of_cons in Hin as [->|Hin]; [by left | right; auto].
Qed.

Lemma dict_display_snoc items k v :
  Narration.dict_display (items ++ [(k, v)]) =
    Narration.dict_setitem (Narration.dict_display items) k v.
Proof. unfold Narration.dict_display. by rewrite foldl_app. Qed.

(** In a dict display the last value given for a key prevails and no key is
    kept twice: looking a key up gives the value of its last item in the
    display, so an earlier item with the same key is lost. *)
Lemma dict_display_last_value_prevails items :
  NoDup (Narration.dict_display items).*1 ∧
  ∀ k, Narration.dict_lookup (Narration.dict_display items) k =
         Narration.dict_lookup (reverse items) k.
Proof.
  induction items as [|[k v] items [IHdup IHget]] using rev_ind.
  - split; [constructor | done].
  - rewrite dict_display_snoc. split.
    + by apply dict_setitem_keys_NoDup.
    + intros k'. rewrite dict_lookup_setitem, reverse_snoc. cbn.
      destruct (decide (k = k')); [done | apply IHget].
Qed.

End DictDisplay.

